(** * prebloom_scout: a shallow embedding of [prebloom_scout.py]

    The script loads two pipe-delimited listing files into a verified
    ticker universe, extracts ticker tokens from Reddit text, counts the
    mentions in three age buckets and ranks the tickers that pass the
    pre-bloom thresholds.

    Modelling choices.
    - A Python [str] is the list of its code points, so [len], slicing and
      comparison are those of the list.
    - What Python reads off the Unicode character database, which is not
      part of the script, is a parameter: the upper-case mapping of a
      character ([str.upper] maps character by character, and a character
      may map to several), and the character classes of [str.isalpha],
      [str.strip] and the [\w] of [re].  Nothing is assumed of these
      tables unless a theorem says so in a hypothesis.
    - Python [int] is [Z] where it can be negative (ages) and [nat] where
      it is a count.
    - Python [float] is the primitive binary64 float of the kernel, so
      [/], [*], [+], [-] and [<] round and compare as CPython does.
    - [dict] and [Counter] are [gmap], [set] is [gset]; an exception is
      [None].
    - Network access and the Reddit client are inputs: the two listing
      texts and the posts are arguments of the functions below. *)

From Stdlib Require Import ZArith NArith Lia Floats Uint63 Ascii String.
From Stdlib Require Import List Sorted.
From stdpp Require Import base option list gmap sets strings.

Set Warnings "-inexact-float".

(** * Part I: the program *)

(** ** Python strings *)

(** A [str]: its code points. *)
Abbreviation str := (list N).

(** A string literal of the source; the script's literals are ASCII, one
    code point per character. *)
Definition lit (s : string) : str :=
  N_of_ascii <$> list_ascii_of_string s.

#[global] Arguments lit : simpl never.

(** The tables of the Unicode character database the script reads through
    [str.upper], [str.isalpha], [str.strip] and the regex [\b]. *)
Class Unicode : Type := {
  to_upper_full : N -> str;   (* the upper-case mapping of one character *)
  is_alpha : N -> bool;       (* [c.isalpha()] *)
  is_space : N -> bool;       (* [c.isspace()] *)
  is_word : N -> bool         (* [\w] *)
}.

Module PyStr.

Definition between (lo hi c : N) : bool := (lo <=? c)%N && (c <=? hi)%N.

(** [[A-Z]] *)
Definition is_upper_letter : N -> bool := between 65 90.
(** [[a-z]] *)
Definition is_lower_letter : N -> bool := between 97 122.
Definition is_digit_char : N -> bool := between 48 57.

Definition DOLLAR : N := 36.
Definition PIPE : N := 124.
Definition LF : N := 10.
Definition CR : N := 13.

(** The tables on the ASCII range, as Python has them there. *)
Definition ascii_alpha (c : N) : bool :=
  is_upper_letter c || is_lower_letter c.
Definition ascii_word (c : N) : bool :=
  ascii_alpha c || is_digit_char c || (c =? 95)%N.
Definition ascii_space (c : N) : bool :=
  between 9 13 c || between 28 32 c.
Definition ascii_upper (c : N) : N :=
  if is_lower_letter c then (c - 32)%N else c.

(** The line boundaries of [str.splitlines]: LF VT FF CR FS GS RS, NEL,
    LINE SEPARATOR, PARAGRAPH SEPARATOR. *)
Definition is_linebreak (c : N) : bool :=
  between 10 13 c || between 28 30 c || (c =? 133)%N
  || between 8232 8233 c.

Definition all_chars (p : N -> bool) (s : str) : bool := forallb p s.

Definition nonempty (s : str) : bool :=
  match s with [] => false | _ :: _ => true end.

Section WithTables.
Context {U : Unicode}.

(** [s.upper()] *)
Fixpoint upper (s : str) : str :=
  match s with
  | [] => []
  | c :: s' => to_upper_full c ++ upper s'
  end.

(** [s.isalpha()]: false on the empty string. *)
Definition isalpha (s : str) : bool :=
  nonempty s && all_chars is_alpha s.

End WithTables.

(** [s.lstrip()] and [s.lstrip(chars)] through the class of stripped
    characters. *)
Fixpoint lstrip_by (p : N -> bool) (s : str) : str :=
  match s with
  | [] => []
  | c :: s' => if p c then lstrip_by p s' else s
  end.

Fixpoint rstrip_by (p : N -> bool) (s : str) : str :=
  match s with
  | [] => []
  | c :: s' =>
      let r := rstrip_by p s' in
      if p c && negb (nonempty r) then [] else c :: r
  end.

(** [s.strip()] *)
Definition strip {U : Unicode} (s : str) : str :=
  rstrip_by is_space (lstrip_by is_space s).

(** [s.startswith(p)] *)
Fixpoint startswith (p s : str) : bool :=
  match p, s with
  | [], _ => true
  | _ :: _, [] => false
  | a :: p', b :: s' => (a =? b)%N && startswith p' s'
  end.

(** [k in s] for strings: substring containment. *)
Fixpoint contains (k s : str) : bool :=
  startswith k s ||
  match s with
  | [] => false
  | _ :: s' => contains k s'
  end.

(** [s.split(sep)] for a one-character separator. *)
Fixpoint split (sep : N) (s : str) : list str :=
  match s with
  | [] => [[]]
  | c :: s' =>
      if (c =? sep)%N then [] :: split sep s'
      else match split sep s' with
           | h :: t => (c :: h) :: t
           | [] => [[c]]
           end
  end.

(** [s.splitlines()]: CR LF is one boundary, and a final boundary opens no
    empty last line. *)
Fixpoint splitlines (s : str) : list str :=
  match s with
  | [] => []
  | c :: s' =>
      if is_linebreak c then
        [] ::
          (if (c =? CR)%N then
             match s' with
             | c' :: s'' =>
                 if (c' =? LF)%N then splitlines s'' else splitlines s'
             | [] => splitlines s'
             end
           else splitlines s')
      else match splitlines s' with
           | h :: t => (c :: h) :: t
           | [] => [[c]]
           end
  end.

(** [l.index(x)]: the first position of [x], [None] for [ValueError]. *)
Fixpoint index (x : str) (l : list str) : option nat :=
  match l with
  | [] => None
  | y :: l' => if bool_decide (y = x) then Some 0%nat else S <$> index x l'
  end.

End PyStr.

(** The tables that know the ASCII characters only: every character above
    127 is unchanged by [upper] and in none of the classes.  On ASCII text
    they are Python's. *)
Definition ascii_tables : Unicode := {|
  to_upper_full := fun c => [PyStr.ascii_upper c];
  is_alpha := PyStr.ascii_alpha;
  is_space := PyStr.ascii_space;
  is_word := PyStr.ascii_word
|}.

(** ** The ticker regex [r"\$?[A-Z]{1,6}\b"] *)

Module TickerRe.
Import PyStr.

Section WithTables.
Context {U : Unicode}.

Definition is_word_at (o : option N) : bool :=
  match o with None => false | Some c => is_word c end.

(** [\b] between the character before and the character after a position. *)
Definition word_boundary (before after : option N) : bool :=
  xorb (is_word_at before) (is_word_at after).

(** [[A-Z]{k}\b] at the start of [s]. *)
Definition letters_exactly (k : nat) (s : str) : option str :=
  let m := take k s in
  if (length m =? k)%nat && all_chars is_upper_letter m
     && word_boundary (last m) (head (drop k s))
  then Some m else None.

(** [[A-Z]{1,6}\b]: greedy, the engine backs off from six letters to one. *)
Definition letters_greedy (s : str) : option str :=
  let try := fun k r =>
    match letters_exactly k s with Some m => Some m | None => r end in
  try 6%nat (try 5%nat (try 4%nat (try 3%nat (try 2%nat (try 1%nat None))))).

(** The whole pattern at the start of [s]: [\$?] takes the dollar first and
    gives it back when the rest fails. *)
Definition match_at (s : str) : option str :=
  match s with
  | c :: s' =>
      if (c =? DOLLAR)%N then
        match letters_greedy s' with
        | Some m => Some (DOLLAR :: m)
        | None => letters_greedy s
        end
      else letters_greedy s
  | [] => letters_greedy s
  end.

(** [TICKER_RE.findall]: left to right, non-overlapping; [skip] counts the
    characters of the last match still to be passed over. *)
Fixpoint findall_from (skip : nat) (s : str) : list str :=
  match s with
  | [] => []
  | _ :: s' =>
      match skip with
      | S k => findall_from k s'
      | O =>
          match match_at s with
          | Some m => m :: findall_from (length m - 1) s'
          | None => findall_from 0 s'
          end
      end
  end.

Definition findall (s : str) : list str := findall_from 0 s.

End WithTables.

End TickerRe.

(** ** Module-level settings *)

(** The exclusion sets, category switches and keyword lists are globals the
    script invites its user to edit; the functions below take them as a
    record, and [settings] holds the values of the source. *)
Record Settings : Type := {
  EXCLUDE_TICKERS : gset str;
  STOPWORDS : gset str;
  EXCLUDE_ETFS : bool;
  EXCLUDE_BIOTECH : bool;
  EXCLUDE_ADRS : bool;
  BIOTECH_KEYWORDS : list str;
  ADR_KEYWORDS : list str
}.

Definition settings : Settings := {|
  EXCLUDE_TICKERS := list_to_set (lit <$> [
    "AAPL"; "MSFT"; "AMZN"; "GOOG"; "GOOGL"; "META"; "NVDA"; "AMD"; "TSLA";
    "NFLX"; "ORCL"; "INTC"; "CSCO"; "IBM"; "ADBE"; "CRM"; "QCOM"; "AVGO";
    "TXN";
    "SPY"; "QQQ"; "DIA"; "IWM"; "VTI";
    "GME"; "AMC"; "BB"; "NOK"; "PLTR";
    "COIN"; "MARA"; "RIOT" ]%string);
  STOPWORDS := list_to_set (lit <$> [
    "A"; "I"; "DD"; "CEO"; "CFO"; "USA"; "US"; "GDP"; "IPO"; "AI"; "EV";
    "FOMO"; "YOLO"; "SEC"; "FED"; "IMO"; "TLDR"; "EDIT"; "WSB"; "NYSE";
    "NASDAQ"; "THE"; "AND"; "OR"; "FOR"; "WITH"; "THIS"; "THAT" ]%string);
  EXCLUDE_ETFS := true;
  EXCLUDE_BIOTECH := true;
  EXCLUDE_ADRS := true;
  BIOTECH_KEYWORDS := lit <$> [
    "BIOTECH"; "BIO TECH"; "BIOSCIENCE"; "BIOSCIENCES"; "BIOSCI";
    "BIOPHARMA"; "BIO-PHARMA"; "PHARMA"; "PHARMACEUT"; "THERAPEUT";
    "THERAPEUTICS"; "ONCO"; "ONCOLOGY"; "GENOM"; "GENE"; "IMMUNO";
    "VACCINE"; "CLINICAL"; "DRUG"; "MEDICINES" ]%string;
  ADR_KEYWORDS := lit <$> [
    "AMERICAN DEPOSITARY"; "DEPOSITARY SHARES"; "DEPOSITARY RECEIPT";
    "ADR"; "ADS" ]%string
|}.

(** The pre-bloom thresholds. *)
Definition MIN_RECENT_MENTIONS : nat := 3.
Definition MAX_OLD_MENTIONS_31_90 : nat := 25.
Definition MAX_TOTAL_MENTIONS : nat := 120.
Definition MIN_MOMENTUM_RATIO : float := 1.8%float.

Definition TOP_LEVEL_COMMENT_LIMIT : nat := 75.

(** ** Symbol registry *)

(** A value of [meta]: [{"name": ..., "is_etf": ...}]. *)
Record SymbolInfo : Type := { name : str; is_etf : bool }.

(** [verified] and [meta] as the loader threads them. *)
Record Registry : Type := {
  verified : gset str;
  meta : gmap str SymbolInfo
}.

Definition empty_registry : Registry := {| verified := ∅; meta := ∅ |}.

(** [meta.setdefault(sym, info)] *)
Definition setdefault (sym : str) (info : SymbolInfo)
  (m : gmap str SymbolInfo) : gmap str SymbolInfo :=
  match m !! sym with
  | Some _ => m
  | None => <[sym := info]> m
  end.

Section Loader.
Context {U : Unicode}.

(** [_parse_pipe_file]; [None] when [lines[0]] raises on a text without a
    non-blank line. *)
Definition _parse_pipe_file (text : str)
  : option (list str * list (list str)) :=
  let lines :=
    List.filter (fun ln => PyStr.nonempty (PyStr.strip ln))
                (PyStr.splitlines text) in
  match lines with
  | [] => None
  | header :: rest =>
      Some (PyStr.split PyStr.PIPE header,
            List.map (PyStr.split PyStr.PIPE)
              (List.filter
                 (fun ln =>
                    negb (PyStr.startswith (lit "File Creation Time") ln))
                 rest))
  end.

(** The fields a row contributes, or [None] when the row is skipped. *)
Definition row_symbol (sym_i name_i etf_i : nat) (parts : list str)
  : option (str * SymbolInfo) :=
  if (length parts <=? Nat.max (Nat.max sym_i name_i) etf_i)%nat then None
  else
    let sym := PyStr.upper (PyStr.strip (nth sym_i parts [])) in
    let name := PyStr.strip (nth name_i parts []) in
    let is_etf :=
      bool_decide (PyStr.upper (PyStr.strip (nth etf_i parts [])) = lit "Y") in
    if PyStr.nonempty sym && PyStr.isalpha sym
    then Some (sym, {| name := name; is_etf := is_etf |})
    else None.

(** Body of the loop over [rows1]: [meta[sym] = ...] overwrites. *)
Definition nasdaq_row (sym_i name_i etf_i : nat)
  (reg : Registry) (parts : list str) : Registry :=
  match row_symbol sym_i name_i etf_i parts with
  | None => reg
  | Some (sym, info) =>
      {| verified := {[sym]} ∪ verified reg;
         meta := <[sym := info]> (meta reg) |}
  end.

(** Body of the loop over [rows2]. *)
Definition other_row (sym_i name_i etf_i : nat)
  (reg : Registry) (parts : list str) : Registry :=
  match row_symbol sym_i name_i etf_i parts with
  | None => reg
  | Some (sym, info) =>
      {| verified := {[sym]} ∪ verified reg;
         meta := setdefault sym info (meta reg) |}
  end.

(** First half of [load_symbol_metadata]: [nasdaqlisted.txt], whose text is
    [text1]. *)
Definition load_nasdaq_listed (text1 : str) (reg : Registry)
  : option Registry :=
  '(h1, rows1) ← _parse_pipe_file text1;
  sym_i ← PyStr.index (lit "Symbol") h1;
  name_i ← PyStr.index (lit "Security Name") h1;
  etf_i ← PyStr.index (lit "ETF") h1;
  Some (fold_left (nasdaq_row sym_i name_i etf_i) rows1 reg).

(** Second half: [otherlisted.txt], whose text is [text2]. *)
Definition load_other_listed (text2 : str) (reg : Registry)
  : option Registry :=
  '(h2, rows2) ← _parse_pipe_file text2;
  sym2_i ← PyStr.index (lit "ACT Symbol") h2;
  name2_i ← PyStr.index (lit "Security Name") h2;
  etf2_i ← PyStr.index (lit "ETF") h2;
  Some (fold_left (other_row sym2_i name2_i etf2_i) rows2 reg).

(** [load_symbol_metadata], the two responses being [text1] and [text2]. *)
Definition load_symbol_metadata (text1 text2 : str) : option Registry :=
  reg ← load_nasdaq_listed text1 empty_registry;
  load_other_listed text2 reg.

End Loader.

(** ** Category filter and token extractor *)

Section Extractor.
Context {U : Unicode}.

(** [security_name_has_any] *)
Definition security_name_has_any (name : str) (keywords : list str)
  : bool :=
  if negb (PyStr.nonempty name) then false
  else
    let up := PyStr.upper name in
    existsb (fun k => PyStr.contains k up) keywords.

(** [passes_category_filters] *)
Definition passes_category_filters (cfg : Settings) (ticker : str)
  (meta : gmap str SymbolInfo) : bool :=
  match meta !! ticker with
  | None => true
  | Some info =>
      if EXCLUDE_ETFS cfg && is_etf info then false
      else if EXCLUDE_ADRS cfg
              && security_name_has_any (name info) (ADR_KEYWORDS cfg)
      then false
      else if EXCLUDE_BIOTECH cfg
              && security_name_has_any (name info) (BIOTECH_KEYWORDS cfg)
      then false
      else true
  end.

(** The loop of [extract_tickers] over the regex hits. *)
Fixpoint extract_hits (cfg : Settings) (verified : gset str)
  (meta : gmap str SymbolInfo) (hits : list str) : list str :=
  match hits with
  | [] => []
  | h :: hits' =>
      let t := PyStr.lstrip_by (N.eqb PyStr.DOLLAR) h in
      let out := extract_hits cfg verified meta hits' in
      if bool_decide (t ∈ STOPWORDS cfg) then out
      else if bool_decide (t ∈ EXCLUDE_TICKERS cfg) then out
      else if negb ((1 <=? length t)%nat
                    && (length t <=? 5)%nat
                    && PyStr.isalpha t
                    && bool_decide (t ∈ verified))
      then out
      else if negb (passes_category_filters cfg t meta) then out
      else t :: out
  end.

(** [extract_tickers] *)
Definition extract_tickers (cfg : Settings) (text : str)
  (verified : gset str) (meta : gmap str SymbolInfo) : list str :=
  if negb (PyStr.nonempty text) then []
  else extract_hits cfg verified meta (TickerRe.findall (PyStr.upper text)).

End Extractor.

(** ** Age buckets *)

(** The three keys of [counts]: ["0_7"], ["8_30"], ["31_90"]. *)
Inductive bucket : Type := B0_7 | B8_30 | B31_90.

#[global] Instance bucket_eq_dec : EqDecision bucket.
Proof. solve_decision. Defined.

(** [bucket_for_age_days] *)
Definition bucket_for_age_days (age_days : Z) : bucket :=
  if (age_days <=? 7)%Z then B0_7
  else if (age_days <=? 30)%Z then B8_30
  else B31_90.

(** ** Mention aggregator *)

(** [Counter()[t]]: a missing key reads as zero. *)
Definition count (c : gmap str nat) (t : str) : nat :=
  default 0%nat (c !! t).

(** [c[t] += 1] on a [Counter]. *)
Definition incr (c : gmap str nat) (t : str) : gmap str nat :=
  <[t := S (count c t)]> c.

(** The three tables [main] fills: [counts], [per_sub], [sample_titles]. *)
Record Tables : Type := {
  counts : bucket -> gmap str nat;
  per_sub : gmap str (gmap str nat);
  sample_titles : gmap str (list (str * str))
}.

Definition empty_tables : Tables := {|
  counts := fun _ => ∅;
  per_sub := ∅;
  sample_titles := ∅
|}.

(** [counts[b][t] += 1] *)
Definition counts_incr (cs : bucket -> gmap str nat) (b : bucket)
  (t : str) : bucket -> gmap str nat :=
  fun b' => if decide (b' = b) then incr (cs b') t else cs b'.

(** [per_sub[t][sub] += 1]; [per_sub] is a [defaultdict(Counter)]. *)
Definition per_sub_incr (ps : gmap str (gmap str nat))
  (t sub : str) : gmap str (gmap str nat) :=
  <[t := incr (default ∅ (ps !! t)) sub]> ps.

(** [sample_titles[t]] read through the [defaultdict(list)]. *)
Definition samples (st : gmap str (list (str * str))) (t : str)
  : list (str * str) :=
  default [] (st !! t).

(** [if len(sample_titles[t]) < 3: sample_titles[t].append((sub, title))];
    the read creates the entry. *)
Definition sample_add (st : gmap str (list (str * str)))
  (t sub title : str) : gmap str (list (str * str)) :=
  let l := samples st t in
  <[t := if (length l <? 3)%nat then l ++ [(sub, title)] else l]> st.

(** Body of [for t in tks] for a post: the sample is the post title cut to
    its first 140 characters, [title[:140]]. *)
Definition record_post_mention (b : bucket) (sub title : str)
  (tb : Tables) (t : str) : Tables :=
  {| counts := counts_incr (counts tb) b t;
     per_sub := per_sub_incr (per_sub tb) t sub;
     sample_titles :=
       sample_add (sample_titles tb) t sub (take 140 title) |}.

(** Body of [for t in c_tks] for a comment: no sample is kept. *)
Definition record_comment_mention (cb : bucket) (sub : str)
  (tb : Tables) (t : str) : Tables :=
  {| counts := counts_incr (counts tb) cb t;
     per_sub := per_sub_incr (per_sub tb) t sub;
     sample_titles := sample_titles tb |}.

(** What the Reddit client hands over.  A comment without [created_utc]
    (or with a zero one) has no age. *)
Record Comment : Type := {
  c_age_days : option Z;
  body : str
}.

Record Post : Type := {
  before_cutoff : bool;      (* post.created_utc < cutoff_ts *)
  post_age_days : Z;
  title : str;               (* post.title or "" *)
  selftext : str;            (* post.selftext or "" *)
  comments : list Comment    (* the comments iterated before any exception *)
}.

Section Scan.
Context {U : Unicode}.

(** One turn of [for c in post.comments] past the [scanned] test. *)
Definition scan_comment (cfg : Settings) (reg : Registry) (sub : str)
  (tb : Tables) (c : Comment) : Tables :=
  match c_age_days c with
  | None => tb
  | Some age =>
      if negb (PyStr.nonempty (body c)) then tb
      else
        let cb := bucket_for_age_days age in
        let c_tks := extract_tickers cfg (body c) (verified reg) (meta reg) in
        fold_left (record_comment_mention cb sub) c_tks tb
  end.

(** One turn of [for post in subreddit.new(...)] past the cutoff test. *)
Definition scan_post (cfg : Settings) (reg : Registry) (sub : str)
  (tb : Tables) (p : Post) : Tables :=
  let b := bucket_for_age_days (post_age_days p) in
  let tks :=
    extract_tickers cfg (title p) (verified reg) (meta reg)
    ++ extract_tickers cfg (selftext p) (verified reg) (meta reg) in
  let tb1 := fold_left (record_post_mention b sub (title p)) tks tb in
  fold_left (scan_comment cfg reg sub)
            (firstn TOP_LEVEL_COMMENT_LIMIT (comments p)) tb1.

(** The loop over the posts of one subreddit; it stops at the first post
    older than the cutoff. *)
Fixpoint scan_posts (cfg : Settings) (reg : Registry) (sub : str)
  (tb : Tables) (posts : list Post) : Tables :=
  match posts with
  | [] => tb
  | p :: posts' =>
      if before_cutoff p then tb
      else scan_posts cfg reg sub (scan_post cfg reg sub tb p) posts'
  end.

(** The loop over [SUBREDDITS], each with the posts its listing yields. *)
Definition scan_subreddits (cfg : Settings) (reg : Registry)
  (feeds : list (str * list Post)) : Tables :=
  fold_left (fun tb '(sub, posts) => scan_posts cfg reg sub tb posts)
            feeds empty_tables.

End Scan.

(** ** Scorer and ranker *)

(** A tuple of [rows]. *)
Record Row : Type := {
  row_t : str;
  row_name : str;
  row_a : nat;
  row_b : nat;
  row_c : nat;
  row_total : nat;
  row_mom_short : float;
  row_mom_long : float;
  row_score : float
}.

(** [float(n)] of a count.  The conversion is exact below 2^53. *)
Definition to_float (n : nat) : float :=
  PrimFloat.of_uint63 (Uint63.of_Z (Z.of_nat n)).

(** [x / y] of two counts: Python's true division, the correctly rounded
    quotient, which for operands below 2^53 is the quotient of their
    floats. *)
Definition truediv (x y : nat) : float :=
  (to_float x / to_float y)%float.

Definition mom_short_of (a b : nat) : float := truediv (a + 1) (b + 1).
Definition mom_long_of (a c : nat) : float := truediv (a + 1) (c + 1).

(** [(a * 2.0) + (mom_long * 3.0) - (c * 0.25)] *)
Definition score_of (a c : nat) (mom_long : float) : float :=
  ((to_float a * 2.0) + (mom_long * 3.0) - (to_float c * 0.25))%float.

(** [all_tickers] *)
Definition all_tickers (cs : bucket -> gmap str nat) : gset str :=
  dom (cs B0_7) ∪ dom (cs B8_30) ∪ dom (cs B31_90).

(** [meta.get(t, {}).get("name", "")] *)
Definition display_name (meta : gmap str SymbolInfo) (t : str) : str :=
  match meta !! t with
  | Some info => name info
  | None => []
  end.

(** One turn of [for t in all_tickers]: the row appended, or [None] after a
    [continue]. *)
Definition candidate (cs : bucket -> gmap str nat)
  (meta : gmap str SymbolInfo) (t : str) : option Row :=
  let a := count (cs B0_7) t in
  let b := count (cs B8_30) t in
  let c := count (cs B31_90) t in
  let total := (a + b + c)%nat in
  let mom_short := mom_short_of a b in
  let mom_long := mom_long_of a c in
  if (a <? MIN_RECENT_MENTIONS)%nat then None
  else if (MAX_OLD_MENTIONS_31_90 <? c)%nat then None
  else if (MAX_TOTAL_MENTIONS <? total)%nat then None
  else if (mom_long <? MIN_MOMENTUM_RATIO)%float then None
  else
    let score := score_of a c mom_long in
    Some {| row_t := t; row_name := display_name meta t;
            row_a := a; row_b := b; row_c := c; row_total := total;
            row_mom_short := mom_short; row_mom_long := mom_long;
            row_score := score |}.

(** The loop that builds [rows], over the tickers in the order [ts] in which
    the set yields them. *)
Fixpoint build_rows (cs : bucket -> gmap str nat)
  (meta : gmap str SymbolInfo) (ts : list str) : list Row :=
  match ts with
  | [] => []
  | t :: ts' =>
      match candidate cs meta t with
      | Some r => r :: build_rows cs meta ts'
      | None => build_rows cs meta ts'
      end
  end.

(** [rows.sort(key=lambda x: x[8], reverse=True)].  The sort compares keys
    with [<] only and is stable, also under [reverse=True]: a row moves
    behind the rows after it whose score is greater, and never past one of
    equal score. *)
Fixpoint insert_desc (r : Row) (sorted : list Row) : list Row :=
  match sorted with
  | [] => [r]
  | r' :: rest =>
      if (row_score r <? row_score r')%float
      then r' :: insert_desc r rest
      else r :: sorted
  end.

Fixpoint sort_desc (rows : list Row) : list Row :=
  match rows with
  | [] => []
  | r :: rows' => insert_desc r (sort_desc rows')
  end.

(** [rows] as [main] writes them out, for the iteration order [ts] of
    [all_tickers]. *)
Definition ranked_rows (cs : bucket -> gmap str nat)
  (meta : gmap str SymbolInfo) (ts : list str) : list Row :=
  sort_desc (build_rows cs meta ts).

(** [main] up to the CSV: load, scan, rank. *)
Definition main {U : Unicode} (cfg : Settings) (text1 text2 : str)
  (feeds : list (str * list Post)) : option (list Row) :=
  reg ← load_symbol_metadata text1 text2;
  let tb := scan_subreddits cfg reg feeds in
  Some (ranked_rows (counts tb) (meta reg)
          (elements (all_tickers (counts tb)))).

(** [rows[:25]]: the rows [main] prints under its banner. *)
Definition printed_rows (rows : list Row) : list Row := firstn 25 rows.

(** ** Inputs used in the examples below *)

(** The examples are ASCII text, read with [ascii_tables]. *)
Module Sample.

Definition join_lines (ls : list string) : str :=
  fold_right (fun l acc => lit l ++ [PyStr.LF] ++ acc) [] ls.

(** A Nasdaq listing with a six-letter symbol, an ETF, a biotech name, a
    short row and the footer. *)
Definition nasdaq_listed : str := join_lines [
  "Symbol|Security Name|Market Category|ETF";
  "ABCD|Abcd Inc.|Q|N";
  "ABCDEF|Long Symbol Co|Q|N";
  "XYZ|XYZ Therapeutics Inc.|Q|N";
  "SPYY|Some Index Fund|Q|Y";
  "BAD";
  "File Creation Time: 0101202612:00|||" ]%string.

(** The other listing names ABCD again, with another record. *)
Definition other_listed : str := join_lines [
  "ACT Symbol|Security Name|ETF";
  "ABCD|Abcd Holdings|Y";
  "BRK.A|Berkshire|N";
  "NEWC|New Co|N";
  "NEWC|New Co Again|Y" ]%string.

Definition info (name : string) (is_etf : bool) : SymbolInfo :=
  {| name := lit name; is_etf := is_etf |}.

Definition abcd_info : SymbolInfo := info "Abcd Inc." false.

(** What [load_symbol_metadata] makes of the two listings. *)
Definition loaded : Registry :=
  {| verified :=
       list_to_set (lit <$> ["ABCD"; "ABCDEF"; "XYZ"; "SPYY"; "NEWC"]%string);
     meta := list_to_map [
       (lit "ABCD", abcd_info);
       (lit "ABCDEF", info "Long Symbol Co" false);
       (lit "XYZ", info "XYZ Therapeutics Inc." false);
       (lit "SPYY", info "Some Index Fund" true);
       (lit "NEWC", info "New Co" false) ] |}.

(** The two halves of the load, each from an empty registry. *)
Definition loaded_nasdaq : Registry :=
  {| verified :=
       list_to_set (lit <$> ["ABCD"; "ABCDEF"; "XYZ"; "SPYY"]%string);
     meta := list_to_map [
       (lit "ABCD", abcd_info);
       (lit "ABCDEF", info "Long Symbol Co" false);
       (lit "XYZ", info "XYZ Therapeutics Inc." false);
       (lit "SPYY", info "Some Index Fund" true) ] |}.

Definition loaded_other : Registry :=
  {| verified := list_to_set (lit <$> ["ABCD"; "NEWC"]%string);
     meta := list_to_map [
       (lit "ABCD", info "Abcd Holdings" true);
       (lit "NEWC", info "New Co" false) ] |}.

Definition abcd_only : Registry :=
  {| verified := {[ lit "ABCD" ]}; meta := {[ lit "ABCD" := abcd_info ]} |}.

Definition mention_post (age : Z) (text : string) : Post :=
  {| before_cutoff := false; post_age_days := age; title := lit text;
     selftext := []; comments := [] |}.

(** ABCD four times at age 1 and twice at age 45. *)
Definition fading_feed : list (str * list Post) :=
  [(lit "stocks", [mention_post 1 "ABCD abcd $ABCD Abcd";
                   mention_post 45 "abcd and ABCD"])].

(** ABCD five times at age 1. *)
Definition blooming_feed : list (str * list Post) :=
  [(lit "stocks", [mention_post 1 "ABCD abcd $ABCD Abcd ABCD"])].

(** ABCD three times and NEWC five times at age 2. *)
Definition two_ticker_feed : list (str * list Post) :=
  [(lit "stocks",
    [mention_post 2 "ABCD abcd ABCD newc newc newc newc newc"])].

Definition two_ticker_registry : Registry :=
  {| verified := {[ lit "ABCD"; lit "NEWC" ]};
     meta := {[ lit "ABCD" := abcd_info ]} |}.

Definition one_comment : Comment :=
  {| c_age_days := Some 1%Z; body := lit "ABCD is moving" |}.

Definition blooming_counts : bucket -> gmap str nat :=
  counts (scan_subreddits (U := ascii_tables) settings abcd_only
            blooming_feed).

Definition fading_counts : bucket -> gmap str nat :=
  counts (scan_subreddits (U := ascii_tables) settings abcd_only
            fading_feed).

Definition two_ticker_counts : bucket -> gmap str nat :=
  counts (scan_subreddits (U := ascii_tables) settings two_ticker_registry
            two_ticker_feed).

Definition abcd_row (a : nat) (mom score : float) : Row :=
  {| row_t := lit "ABCD"; row_name := lit "Abcd Inc."; row_a := a;
     row_b := 0; row_c := 0; row_total := a; row_mom_short := mom;
     row_mom_long := mom; row_score := score |}.

Definition newc_row : Row :=
  {| row_t := lit "NEWC"; row_name := []; row_a := 5; row_b := 0;
     row_c := 0; row_total := 5; row_mom_short := 6; row_mom_long := 6;
     row_score := 28 |}.

End Sample.

(** ** Vocabulary of the properties *)

(** A character of the ASCII range, and a text made of such. *)
Definition ascii_char (c : N) : Prop := (c < 128)%N.

(** The tables are Python's on the ASCII range: [upper] maps a-z to A-Z and
    nothing else, and the three classes are those of the ASCII letters,
    white space and word characters. *)
Definition agrees_on_ascii (U : Unicode) : Prop :=
  forall c, ascii_char c ->
    to_upper_full c = [PyStr.ascii_upper c]
    /\ is_alpha c = PyStr.ascii_alpha c
    /\ is_space c = PyStr.ascii_space c
    /\ is_word c = PyStr.ascii_word c.

(** The upper-case mapping of no character holds a letter of a-z. *)
Definition upper_never_lowers (U : Unicode) : Prop :=
  forall c,
    PyStr.all_chars (fun c' => negb (PyStr.is_lower_letter c'))
      (to_upper_full c) = true.

(** A hit of the pattern with its dollar stripped: capital letters only. *)
Definition ticker_shaped (h : str) : Prop :=
  PyStr.all_chars PyStr.is_upper_letter
    (PyStr.lstrip_by (N.eqb PyStr.DOLLAR) h) = true.

(** A non-empty run of capital letters. *)
Definition capitals (sym : str) : Prop :=
  (1 <= length sym)%nat
  /\ PyStr.all_chars PyStr.is_upper_letter sym = true.




(** The two facts a run keeps about the samples of a ticker, relative to
    the tables [tb0] it started from: at most three, first seen first. *)
Definition samples_kept (tb0 tb : Tables) : Prop :=
  forall t,
    ((length (samples (sample_titles tb0) t) <= 3)%nat ->
     (length (samples (sample_titles tb) t) <= 3)%nat)
    /\ samples (sample_titles tb0) t `prefix_of` samples (sample_titles tb) t.

(** A float that equals itself is not NaN. *)
Definition is_number (x : float) : Prop := (x =? x)%float = true.

(** The integer thresholds leave finitely many pairs of a recent and an
    old count; [numbers_upto] tests that on each of them the momentum and
    the score are numbers. *)
Definition numbers_at (a c : nat) : bool :=
  ((mom_long_of a c =? mom_long_of a c)
   && (score_of a c (mom_long_of a c) =? score_of a c (mom_long_of a c))
  )%float.

Definition numbers_upto (amax cmax : nat) : bool :=
  forallb (fun a => forallb (numbers_at a) (seq 0 (S cmax)))
          (seq 0 (S amax)).

Definition number_row (r : Row) : Prop := is_number (row_score r).

(** [r1] may stand before [r2]: its score is not below. *)
Definition score_ge (r1 r2 : Row) : Prop :=
  (row_score r2 <=? row_score r1)%float = true.

(** ** Vocabulary of the further properties *)

(** The row [parts] contributes a record for [sym]. *)
Definition names_symbol {U : Unicode} (sym_i name_i etf_i : nat)
  (sym : str) (parts : list str) : Prop :=
  exists info, row_symbol sym_i name_i etf_i parts = Some (sym, info).

(** [meta] has a record for exactly the verified symbols. *)
Definition meta_covers (reg : Registry) : Prop :=
  dom (meta reg) = verified reg.

(** A keyword with a letter of a-z. *)
Definition has_lowercase (k : str) : Prop :=
  PyStr.all_chars (fun c => negb (PyStr.is_lower_letter c)) k = false.

(** An ASCII character that ends a token: not a word character and not the
    dollar. *)
Definition separator (c : N) : Prop :=
  ascii_char c /\ PyStr.ascii_word c = false /\ c <> PyStr.DOLLAR.

(** Sum of the values of a [Counter]. *)
Definition total_of (c : gmap str nat) : nat :=
  map_fold (fun _ v acc => (v + acc)%nat) 0%nat c.

(** Mentions of [t] over the three buckets. *)
Definition mentions (cs : bucket -> gmap str nat) (t : str) : nat :=
  (count (cs B0_7) t + count (cs B8_30) t + count (cs B31_90) t)%nat.

Section FurtherVocabulary.
Context {U : Unicode}.

(** What every ticker that [extract_tickers] returns satisfies. *)
Definition accepted (cfg : Settings) (reg : Registry) (t : str) : Prop :=
  (1 <= length t <= 5)%nat
  /\ PyStr.all_chars PyStr.is_upper_letter t = true
  /\ (t ∈ verified reg)
  /\ (t ∉ STOPWORDS cfg)
  /\ (t ∉ EXCLUDE_TICKERS cfg)
  /\ passes_category_filters cfg t (meta reg) = true.

(** The tickers a post is counted for: [tks] of the source. *)
Definition post_tickers (cfg : Settings) (reg : Registry) (p : Post)
  : list str :=
  extract_tickers cfg (title p) (verified reg) (meta reg)
  ++ extract_tickers cfg (selftext p) (verified reg) (meta reg).

(** [P] survives every update a scan of [feeds] can make. *)
Definition kept_by_scan (cfg : Settings) (reg : Registry)
  (feeds : list (str * list Post)) (P : Tables -> Prop) : Prop :=
  (forall sub posts p b tb t,
     (sub, posts) ∈ feeds -> p ∈ posts -> t ∈ post_tickers cfg reg p ->
     P tb -> P (record_post_mention b sub (title p) tb t))
  /\ (forall sub cb tb t,
        accepted cfg reg t -> P tb -> P (record_comment_mention cb sub tb t)).

(** Every key of a bucket is an accepted ticker with a positive count, and
    the three tables agree on their keys. *)
Definition keys_ok (cfg : Settings) (reg : Registry) (tb : Tables) : Prop :=
  (forall b t, t ∈ dom (counts tb b) ->
     accepted cfg reg t /\ (1 <= count (counts tb b) t)%nat)
  /\ dom (per_sub tb) = all_tickers (counts tb)
  /\ dom (sample_titles tb) ⊆ all_tickers (counts tb).

(** Every stored sample is the title, cut to 140 characters, of a post of
    its subreddit that mentions the ticker. *)
Definition samples_from_posts (cfg : Settings) (reg : Registry)
  (feeds : list (str * list Post)) (tb : Tables) : Prop :=
  forall t sub s, (sub, s) ∈ samples (sample_titles tb) t ->
    exists posts p,
      (sub, posts) ∈ feeds /\ p ∈ posts
      /\ s = take 140 (title p)
      /\ t ∈ post_tickers cfg reg p.

(** How often [t] stands in a list of extracted tickers. *)
Definition occurrences (t : str) (tks : list str) : nat :=
  length (filter (fun x => x = t) tks).

(** What a comment adds to the count of [t] in bucket [b]. *)
Definition comment_mentions (cfg : Settings) (reg : Registry) (b : bucket)
  (t : str) (c : Comment) : nat :=
  match c_age_days c with
  | Some age =>
      if decide (bucket_for_age_days age = b)
      then occurrences t
             (extract_tickers cfg (body c) (verified reg) (meta reg))
      else 0%nat
  | None => 0%nat
  end.

(** What a post with its comments adds to the count of [t] in bucket [b]. *)
Definition post_mentions (cfg : Settings) (reg : Registry) (b : bucket)
  (t : str) (p : Post) : nat :=
  ((if decide (bucket_for_age_days (post_age_days p) = b)
    then occurrences t (post_tickers cfg reg p) else 0)
   + sum_list (map (comment_mentions cfg reg b t)
                 (firstn TOP_LEVEL_COMMENT_LIMIT (comments p))))%nat.

End FurtherVocabulary.

(** Per ticker, the subreddit counts add up to the bucket counts. *)
Definition breakdown_adds_up (tb : Tables) : Prop :=
  forall t, total_of (default ∅ (per_sub tb !! t)) = mentions (counts tb) t.

(** The rows whose score equals [s]. *)
Definition same_score (s : float) (r : Row) : bool :=
  (row_score r =? s)%float.

(** ** Further inputs for the examples *)

Module Fixture.

(** A Nasdaq listing that names ABCD twice. *)
Definition relisted : str := Sample.join_lines [
  "Symbol|Security Name|Market Category|ETF";
  "ABCD|Abcd Inc.|Q|N";
  "ABCD|Abcd Incorporated|Q|N";
  "XYZ|Xyz Corp|Q|N" ]%string.

Definition row (fields : list string) : list str := lit <$> fields.

Definition nasdaq_header : list str :=
  row ["Symbol"; "Security Name"; "Market Category"; "ETF"]%string.

Definition other_header : list str :=
  row ["ACT Symbol"; "Security Name"; "ETF"]%string.

(** Twenty-six tickers, the first with three recent mentions, each next one
    with one more. *)
Definition alphabet : list str :=
  lit <$> ["TA"; "TB"; "TC"; "TD"; "TE"; "TF"; "TG"; "TH"; "TI"; "TJ"; "TK";
           "TL"; "TM"; "TN"; "TO"; "TP"; "TQ"; "TR"; "TS"; "TT"; "TU"; "TV";
           "TW"; "TX"; "TY"; "TZ"]%string.

Definition alphabet_counts : bucket -> gmap str nat :=
  fun b =>
    match b with
    | B0_7 => list_to_map (zip alphabet (seq 3 26))
    | _ => ∅
    end.

Definition ticker_row (t : string) (a : nat) (mom score : float) : Row :=
  {| row_t := lit t; row_name := []; row_a := a; row_b := 0;
     row_c := 0; row_total := a; row_mom_short := mom; row_mom_long := mom;
     row_score := score |}.

(** A post older than the cutoff. *)
Definition expired_post : Post :=
  {| before_cutoff := true; post_age_days := 91; title := lit "ABCD";
     selftext := []; comments := [] |}.

End Fixture.

(** * Part II: properties *)

(** ** Age buckets *)

(** C3.  On the non-negative ages the bucketer returns exactly one of the
    three buckets: the recent one exactly for ages up to 7, the middle one
    exactly for ages 8 to 30, the old one exactly from 31 on; 7 is recent,
    8 and 30 are middle, 31 is old. *)
Theorem bucket_partition (age_days : Z) :
  (0 <= age_days)%Z ->
  (bucket_for_age_days age_days = B0_7 <-> (age_days <= 7)%Z)
  /\ (bucket_for_age_days age_days = B8_30
      <-> (8 <= age_days <= 30)%Z)
  /\ (bucket_for_age_days age_days = B31_90 <-> (31 <= age_days)%Z)
  /\ bucket_for_age_days 7 = B0_7
  /\ bucket_for_age_days 8 = B8_30
  /\ bucket_for_age_days 30 = B8_30
  /\ bucket_for_age_days 31 = B31_90.
Proof.
  intros _. unfold bucket_for_age_days.
  destruct (Z.leb_spec age_days 7); destruct (Z.leb_spec age_days 30);
    repeat split; intros; try lia; try discriminate; reflexivity.
Qed.

Lemma bucket_partition_witness :
  (0 <= 12)%Z /\ bucket_for_age_days 12 = B8_30.
Proof.
  split; [lia |].
  apply (bucket_partition 12); lia.
Defined.

(** C10.  The bucketer is defined on every integer, and a negative age
    falls in the recent bucket. *)
Theorem bucket_negative_age (age_days : Z) :
  (age_days < 0)%Z -> bucket_for_age_days age_days = B0_7.
Proof.
  intros Hneg. unfold bucket_for_age_days.
  destruct (Z.leb_spec age_days 7); [reflexivity | lia].
Qed.

Lemma bucket_negative_age_witness :
  (-5 < 0)%Z /\ bucket_for_age_days (-5) = B0_7.
Proof.
  split; [lia |].
  apply (bucket_negative_age (-5)); lia.
Defined.

(** ** Category filter *)

(** C8.  A symbol without an entry in [meta] passes the category filter,
    whatever the three switches and the two keyword lists are. *)
Theorem missing_meta_passes {U : Unicode} (cfg : Settings) (ticker : str)
  (meta : gmap str SymbolInfo) :
  meta !! ticker = None -> passes_category_filters cfg ticker meta = true.
Proof.
  intros Hnone. unfold passes_category_filters. by rewrite Hnone.
Qed.

Lemma missing_meta_passes_witness :
  passes_category_filters (U := ascii_tables) settings (lit "NEWC")
    (meta Sample.abcd_only) = true.
Proof.
  apply (missing_meta_passes (U := ascii_tables) settings (lit "NEWC")
           (meta Sample.abcd_only)).
  reflexivity.
Defined.

(** ** Character ranges *)

Section CharacterRanges.
Import PyStr.

Lemma between_spec lo hi c :
  between lo hi c = true <-> (lo <= c <= hi)%N.
Proof.
  unfold between. rewrite andb_true_iff, !N.leb_le. reflexivity.
Qed.

Lemma upper_letter_ascii c : is_upper_letter c = true -> ascii_char c.
Proof.
  unfold is_upper_letter, ascii_char. rewrite between_spec. lia.
Qed.

Lemma upper_letter_not_dollar c : is_upper_letter c = true -> c <> DOLLAR.
Proof.
  unfold is_upper_letter, DOLLAR. rewrite between_spec. lia.
Qed.

Lemma upper_letter_not_lower c :
  is_upper_letter c = true -> is_lower_letter c = false.
Proof.
  unfold is_upper_letter, is_lower_letter. rewrite between_spec.
  intros H. apply not_true_iff_false. rewrite between_spec. lia.
Qed.

Lemma upper_letter_word c : is_upper_letter c = true -> ascii_word c = true.
Proof. unfold ascii_word, ascii_alpha. by intros ->. Qed.

Lemma upper_letter_alpha c : is_upper_letter c = true -> ascii_alpha c = true.
Proof. unfold ascii_alpha. by intros ->. Qed.

Lemma ascii_upper_letter c :
  is_upper_letter c = true -> ascii_upper c = c.
Proof.
  intros H. unfold ascii_upper. by rewrite (upper_letter_not_lower c H).
Qed.


Lemma ascii_upper_not_lower c : is_lower_letter (ascii_upper c) = false.
Proof.
  unfold ascii_upper. destruct (is_lower_letter c) eqn:E; [| exact E].
  unfold is_lower_letter in *. apply between_spec in E.
  apply not_true_iff_false. rewrite between_spec. lia.
Qed.


Lemma all_chars_app p s1 s2 :
  all_chars p (s1 ++ s2) = all_chars p s1 && all_chars p s2.
Proof. apply forallb_app. Qed.

Lemma nonempty_length (s : str) : nonempty s = true -> (1 <= length s)%nat.
Proof. destruct s; [discriminate | cbn; lia]. Qed.






(** A text in capital letters is its own upper-cased form. *)
Lemma upper_capitals {U : Unicode} s :
  agrees_on_ascii U -> all_chars is_upper_letter s = true -> upper s = s.
Proof.
  intros HU. induction s as [| c s IH]; cbn [upper all_chars forallb];
    [reflexivity |].
  intros [Hc Hs]%andb_prop.
  destruct (HU c (upper_letter_ascii c Hc)) as (-> & _).
  rewrite (ascii_upper_letter c Hc). cbn. by rewrite IH.
Qed.

End CharacterRanges.

(** The ASCII tables are Python's on ASCII, and their [upper] yields no
    letter of a-z. *)
Lemma ascii_tables_agree : agrees_on_ascii ascii_tables.
Proof. intros c _. repeat split. Qed.

Lemma ascii_tables_never_lower : upper_never_lowers ascii_tables.
Proof.
  intros c. cbn. by rewrite ascii_upper_not_lower.
Qed.

(** ** Token extractor *)

Section RegexShape.
Import PyStr TickerRe.
Context {U : Unicode}.

Lemma letters_exactly_upper k s m :
  letters_exactly k s = Some m ->
  all_chars is_upper_letter m = true /\ length m = k.
Proof.
  unfold letters_exactly. intros H.
  destruct (length (take k s) =? k)%nat eqn:Hlen; [| discriminate].
  destruct (all_chars is_upper_letter (take k s)) eqn:Hup; [| discriminate].
  destruct (word_boundary _ _); [| discriminate].
  injection H as <-. split; [assumption | by apply Nat.eqb_eq].
Qed.

Lemma letters_greedy_upper s m :
  letters_greedy s = Some m ->
  all_chars is_upper_letter m = true /\ (1 <= length m <= 6)%nat.
Proof.
  unfold letters_greedy. intros H.
  repeat match type of H with
  | match letters_exactly ?k s with _ => _ end = _ =>
      let E := fresh "E" in
      destruct (letters_exactly k s) eqn:E;
        [ injection H as <-; apply letters_exactly_upper in E as [? ?];
          split; [assumption | lia] | ]
  end.
  discriminate.
Qed.

Lemma upper_run_no_dollar m :
  all_chars is_upper_letter m = true ->
  lstrip_by (N.eqb DOLLAR) m = m.
Proof.
  destruct m as [| c m]; [reflexivity |]. cbn [all_chars forallb lstrip_by].
  intros [Hc _]%andb_prop.
  destruct (N.eqb_spec DOLLAR c) as [E |]; [| reflexivity].
  by destruct (upper_letter_not_dollar c Hc).
Qed.

Lemma match_at_shape s h : match_at s = Some h -> ticker_shaped h.
Proof.
  assert (Hplain : forall s', letters_greedy s' = Some h -> ticker_shaped h).
  { intros s' [Hup _]%letters_greedy_upper. unfold ticker_shaped.
    by rewrite upper_run_no_dollar. }
  unfold match_at. intros H.
  destruct s as [| c s']; [by eapply Hplain |].
  destruct (N.eqb_spec c DOLLAR) as [-> | Hc]; [| by eapply Hplain].
  destruct (letters_greedy s') as [m |] eqn:E; [| by eapply Hplain].
  injection H as <-. apply letters_greedy_upper in E as [Hup _].
  unfold ticker_shaped. cbn [lstrip_by]. rewrite N.eqb_refl.
  by rewrite upper_run_no_dollar.
Qed.

Lemma findall_from_shape s : forall skip h,
  h ∈ findall_from skip s -> ticker_shaped h.
Proof.
  induction s as [| c s IH]; intros skip h Hin; cbn [findall_from] in Hin.
  - by apply elem_of_nil in Hin.
  - destruct skip as [| k]; [| by eapply IH].
    destruct (match_at (c :: s)) as [m |] eqn:E; [| by eapply IH].
    apply elem_of_cons in Hin as [-> | Hin]; [by eapply match_at_shape |].
    by eapply IH.
Qed.

Lemma findall_shape s h : h ∈ findall s -> ticker_shaped h.
Proof. apply findall_from_shape. Qed.

Lemma extract_hits_sound cfg verified meta hits t :
  t ∈ extract_hits cfg verified meta hits ->
  exists h, h ∈ hits
    /\ t = PyStr.lstrip_by (N.eqb DOLLAR) h
    /\ (1 <= length t <= 5)%nat
    /\ PyStr.isalpha t = true
    /\ (t ∈ verified)
    /\ (t ∉ STOPWORDS cfg)
    /\ (t ∉ EXCLUDE_TICKERS cfg)
    /\ passes_category_filters cfg t meta = true.
Proof.
  induction hits as [| h hits IH]; cbn [extract_hits]; intros Hin.
  - by apply elem_of_nil in Hin.
  - assert (Hrest : t ∈ extract_hits cfg verified meta hits ->
                    exists h0, h0 ∈ h :: hits
      /\ t = PyStr.lstrip_by (N.eqb DOLLAR) h0
      /\ (1 <= length t <= 5)%nat
      /\ PyStr.isalpha t = true
      /\ (t ∈ verified)
      /\ (t ∉ STOPWORDS cfg)
      /\ (t ∉ EXCLUDE_TICKERS cfg)
      /\ passes_category_filters cfg t meta = true).
    { intros (h0 & Hh0 & Hrest)%IH. exists h0. split; [by right | exact Hrest]. }
    set (t0 := PyStr.lstrip_by (N.eqb DOLLAR) h) in *.
    destruct (bool_decide (t0 ∈ STOPWORDS cfg)) eqn:Hstop; [by apply Hrest |].
    destruct (bool_decide (t0 ∈ EXCLUDE_TICKERS cfg)) eqn:Hexcl;
      [by apply Hrest |].
    destruct ((1 <=? length t0)%nat && (length t0 <=? 5)%nat
              && PyStr.isalpha t0 && bool_decide (t0 ∈ verified)) eqn:Hsane;
      cbn [negb] in Hin; [| by apply Hrest].
    destruct (passes_category_filters cfg t0 meta) eqn:Hcat;
      cbn [negb] in Hin; [| by apply Hrest].
    apply elem_of_cons in Hin as [-> | Hin]; [| by apply Hrest].
    apply andb_prop in Hsane as [[[Hlo Hhi]%andb_prop Halpha]%andb_prop Hver].
    apply Nat.leb_le in Hlo, Hhi.
    apply bool_decide_eq_false in Hstop, Hexcl.
    apply bool_decide_eq_true in Hver.
    exists h. split; [by left |]. repeat split; assumption.
Qed.

Lemma extract_tickers_sound cfg text verified meta t :
  t ∈ extract_tickers cfg text verified meta ->
  (1 <= length t <= 5)%nat
  /\ all_chars is_upper_letter t = true
  /\ (t ∈ verified)
  /\ (t ∉ STOPWORDS cfg)
  /\ (t ∉ EXCLUDE_TICKERS cfg)
  /\ passes_category_filters cfg t meta = true.
Proof.
  unfold extract_tickers. intros Hin.
  destruct (nonempty text); cbn [negb] in Hin;
    [| by apply elem_of_nil in Hin].
  apply extract_hits_sound in Hin
    as (h & Hh & -> & Hlen & _ & Hver & Hstop & Hexcl & Hpass).
  apply findall_shape in Hh. repeat split; try assumption; apply Hlen.
Qed.

End RegexShape.

(** C4.  Every token [extract_tickers] returns is made of one to five
    capital letters, is in the verified universe, and is neither a stop
    word nor a manually excluded ticker; this holds for every setting of
    the category switches and keyword lists, every universe and every
    metadata mapping. *)
Theorem extracted_ticker_valid {U : Unicode} (cfg : Settings) (text : str)
  (verified : gset str) (meta : gmap str SymbolInfo) (t : str) :
  t ∈ extract_tickers cfg text verified meta ->
  (1 <= length t <= 5)%nat
  /\ PyStr.all_chars PyStr.is_upper_letter t = true
  /\ (t ∈ verified)
  /\ (t ∉ STOPWORDS cfg)
  /\ (t ∉ EXCLUDE_TICKERS cfg).
Proof.
  intros Hin.
  destruct (extract_tickers_sound cfg text verified meta t Hin)
    as (Hlen & Hup & Hver & Hstop & Hexcl & _).
  repeat split; try assumption; apply Hlen.
Qed.

Lemma extracted_ticker_valid_witness :
  (1 <= length (lit "ABCD") <= 5)%nat
  /\ PyStr.all_chars PyStr.is_upper_letter (lit "ABCD") = true
  /\ (lit "ABCD" ∈ verified Sample.abcd_only)
  /\ (lit "ABCD" ∉ STOPWORDS settings)
  /\ (lit "ABCD" ∉ EXCLUDE_TICKERS settings).
Proof.
  apply (extracted_ticker_valid (U := ascii_tables) settings
           (lit "buy $abcd, the AAPL of XYZ")
           (verified Sample.abcd_only) (meta Sample.abcd_only) (lit "ABCD")).
  assert (extract_tickers (U := ascii_tables) settings
            (lit "buy $abcd, the AAPL of XYZ")
            (verified Sample.abcd_only) (meta Sample.abcd_only)
          = [lit "ABCD"])
    as -> by (vm_compute; reflexivity).
  apply list_elem_of_here.
Defined.

(** ** Symbol registry *)

Section RegistryFacts.
Import PyStr.
Context {U : Unicode}.


Section Fields.
Variable fields : str -> Prop.








End Fields.





(** [setdefault] is the union that prefers what is already there. *)
Lemma setdefault_union (sym : str) (info : SymbolInfo) (m : gmap str SymbolInfo) :
  setdefault sym info m = m ∪ {[ sym := info ]}.
Proof.
  unfold setdefault. apply map_eq. intros k.
  rewrite lookup_union.
  destruct (decide (k = sym)) as [-> | Hne].
  - rewrite lookup_singleton_eq.
    destruct (m !! sym) as [i |] eqn:E; [by rewrite E |].
    by rewrite lookup_insert_eq.
  - rewrite lookup_singleton_ne by done.
    destruct (m !! sym) as [i |] eqn:E.
    + by destruct (m !! k).
    + rewrite lookup_insert_ne by done. by destruct (m !! k).
Qed.

Lemma other_row_meta sym_i name_i etf_i reg parts :
  meta (other_row sym_i name_i etf_i reg parts)
  = meta reg ∪ meta (other_row sym_i name_i etf_i empty_registry parts).
Proof.
  unfold other_row.
  destruct (row_symbol _ _ _ parts) as [[sym info] |];
    cbn [meta empty_registry].
  - rewrite !setdefault_union. by rewrite (left_id_L ∅ (∪)).
  - by rewrite (right_id_L ∅ (∪)).
Qed.

Lemma fold_other_rows_meta sym_i name_i etf_i rows : forall reg,
  meta (fold_left (other_row sym_i name_i etf_i) rows reg)
  = meta reg
    ∪ meta (fold_left (other_row sym_i name_i etf_i) rows empty_registry).
Proof.
  induction rows as [| parts rows IH]; intros reg; cbn [fold_left].
  - cbn [meta empty_registry]. by rewrite (right_id_L ∅ (∪)).
  - rewrite (IH (other_row _ _ _ reg parts)).
    rewrite (IH (other_row _ _ _ empty_registry parts)).
    rewrite (other_row_meta _ _ _ reg).
    by rewrite (assoc_L (∪)).
Qed.

Lemma load_other_listed_meta text2 reg reg' :
  load_other_listed text2 reg = Some reg' ->
  exists reg2, load_other_listed text2 empty_registry = Some reg2
    /\ meta reg' = meta reg ∪ meta reg2.
Proof.
  unfold load_other_listed. intros H.
  destruct (_parse_pipe_file text2) as [[h2 rows2] |]; [| discriminate].
  cbn [mbind option_bind] in *.
  destruct (index (lit "ACT Symbol") h2) as [sym_i |]; [| discriminate].
  destruct (index (lit "Security Name") h2) as [name_i |]; [| discriminate].
  destruct (index (lit "ETF") h2) as [etf_i |]; [| discriminate].
  injection H as <-.
  eexists. split; [reflexivity |]. apply fold_other_rows_meta.
Qed.

End RegistryFacts.


Example sample_listings_loaded :
  load_symbol_metadata (U := ascii_tables) Sample.nasdaq_listed
    Sample.other_listed
  = Some Sample.loaded.
Proof. vm_compute. reflexivity. Qed.



(** C7.  The metadata after a successful load is the first listing's
    records, completed by the second listing's records for the symbols the
    first one does not have: a symbol of both listings keeps the record of
    the first. *)
Theorem first_listing_wins {U : Unicode} (text1 text2 : str)
  (reg : Registry) :
  load_symbol_metadata text1 text2 = Some reg ->
  exists reg1 reg2,
    load_nasdaq_listed text1 empty_registry = Some reg1
    /\ load_other_listed text2 empty_registry = Some reg2
    /\ forall sym,
         meta reg !! sym =
           match meta reg1 !! sym with
           | Some info => Some info
           | None => meta reg2 !! sym
           end.
Proof.
  unfold load_symbol_metadata. intros Hload.
  destruct (load_nasdaq_listed text1 empty_registry) as [reg1 |] eqn:E1;
    [| discriminate].
  cbn in Hload.
  apply load_other_listed_meta in Hload as (reg2 & E2 & Hmeta).
  exists reg1, reg2. split; [reflexivity |]. split; [exact E2 |].
  intros sym. rewrite Hmeta, lookup_union.
  destruct (meta reg1 !! sym), (meta reg2 !! sym); reflexivity.
Qed.

Lemma first_listing_wins_witness :
  exists reg1 reg2,
    load_nasdaq_listed (U := ascii_tables) Sample.nasdaq_listed
      empty_registry = Some reg1
    /\ load_other_listed (U := ascii_tables) Sample.other_listed
         empty_registry = Some reg2
    /\ forall sym,
         meta Sample.loaded !! sym =
           match meta reg1 !! sym with
           | Some info => Some info
           | None => meta reg2 !! sym
           end.
Proof.
  apply (first_listing_wins (U := ascii_tables) Sample.nasdaq_listed
           Sample.other_listed Sample.loaded).
  vm_compute. reflexivity.
Defined.

(** The sample listings name ABCD twice; the record kept is the first
    listing's, and NEWC, which only the second listing has, keeps the first
    of its two rows there. *)
Example abcd_keeps_nasdaq_record :
  load_nasdaq_listed (U := ascii_tables) Sample.nasdaq_listed empty_registry
  = Some Sample.loaded_nasdaq
  /\ load_other_listed (U := ascii_tables) Sample.other_listed
       empty_registry
     = Some Sample.loaded_other
  /\ meta Sample.loaded_nasdaq !! lit "ABCD" = Some Sample.abcd_info
  /\ meta Sample.loaded_other !! lit "ABCD"
     = Some (Sample.info "Abcd Holdings" true)
  /\ meta Sample.loaded !! lit "ABCD" = Some Sample.abcd_info
  /\ meta Sample.loaded !! lit "NEWC" = Some (Sample.info "New Co" false).
Proof. repeat split; vm_compute; reflexivity. Qed.
(** ** Mention aggregator *)

Section AggregatorFacts.
Context {U : Unicode}.

Lemma count_incr_eq (c : gmap str nat) t :
  count (incr c t) t = S (count c t).
Proof. unfold count at 1, incr. by rewrite lookup_insert_eq. Qed.

Lemma count_incr_ne (c : gmap str nat) t t' :
  t ≠ t' -> count (incr c t) t' = count c t'.
Proof. intros Hne. unfold count, incr. by rewrite lookup_insert_ne. Qed.

Lemma counts_incr_eq cs b t :
  count (counts_incr cs b t b) t = S (count (cs b) t).
Proof.
  unfold counts_incr. rewrite decide_True by done. apply count_incr_eq.
Qed.

Lemma counts_incr_other_bucket cs b b' t t' :
  b' ≠ b -> count (counts_incr cs b t b') t' = count (cs b') t'.
Proof. intros Hne. unfold counts_incr. by rewrite decide_False. Qed.

Lemma per_sub_incr_eq ps t sub :
  count (default ∅ (per_sub_incr ps t sub !! t)) sub
  = S (count (default ∅ (ps !! t)) sub).
Proof.
  unfold per_sub_incr. rewrite lookup_insert_eq. cbn [default].
  apply count_incr_eq.
Qed.

Lemma samples_add_eq st t sub title :
  samples (sample_add st t sub title) t
  = if (length (samples st t) <? 3)%nat
    then samples st t ++ [(sub, title)] else samples st t.
Proof. unfold sample_add, samples at 1. by rewrite lookup_insert_eq. Qed.

Lemma samples_add_ne st t t' sub title :
  t ≠ t' -> samples (sample_add st t sub title) t' = samples st t'.
Proof.
  intros Hne. unfold sample_add, samples at 1 3.
  by rewrite lookup_insert_ne.
Qed.

Lemma samples_add_length st t t' sub title :
  (length (samples st t') <= 3)%nat ->
  (length (samples (sample_add st t sub title) t') <= 3)%nat.
Proof.
  intros Hle. destruct (decide (t = t')) as [<- | Hne].
  - rewrite samples_add_eq.
    destruct (Nat.ltb_spec (length (samples st t)) 3); [| exact Hle].
    rewrite length_app. cbn. lia.
  - by rewrite samples_add_ne.
Qed.

Lemma samples_add_prefix st t t' sub title :
  samples st t' `prefix_of` samples (sample_add st t sub title) t'.
Proof.
  destruct (decide (t = t')) as [<- | Hne].
  - rewrite samples_add_eq. destruct (_ <? _)%nat; [| done].
    by apply prefix_app_r.
  - by rewrite samples_add_ne.
Qed.

Lemma samples_kept_refl tb : samples_kept tb tb.
Proof. intros t. split; [auto | done]. Qed.

Lemma samples_kept_trans tb0 tb1 tb2 :
  samples_kept tb0 tb1 -> samples_kept tb1 tb2 -> samples_kept tb0 tb2.
Proof.
  intros H01 H12 t. destruct (H01 t) as [L01 P01], (H12 t) as [L12 P12].
  split; [auto | by etrans].
Qed.

Lemma record_post_mention_kept b sub title tb t :
  samples_kept tb (record_post_mention b sub title tb t).
Proof.
  intros t'. cbn [record_post_mention sample_titles].
  split; [apply samples_add_length | apply samples_add_prefix].
Qed.

Lemma record_comment_mention_kept cb sub tb t :
  samples_kept tb (record_comment_mention cb sub tb t).
Proof. intros t'. cbn [record_comment_mention sample_titles]. by split. Qed.

Lemma fold_kept {A} (step : Tables -> A -> Tables) (xs : list A) :
  (forall tb x, samples_kept tb (step tb x)) ->
  forall tb, samples_kept tb (fold_left step xs tb).
Proof.
  intros Hstep. induction xs as [| x xs IH]; intros tb; cbn [fold_left].
  - apply samples_kept_refl.
  - eapply samples_kept_trans; [apply Hstep | apply IH].
Qed.

Lemma scan_comment_kept cfg reg sub tb c :
  samples_kept tb (scan_comment cfg reg sub tb c).
Proof.
  unfold scan_comment.
  destruct (c_age_days c); [| apply samples_kept_refl].
  destruct (negb _); [apply samples_kept_refl |].
  apply fold_kept. intros. apply record_comment_mention_kept.
Qed.

Lemma scan_post_kept cfg reg sub tb p :
  samples_kept tb (scan_post cfg reg sub tb p).
Proof.
  unfold scan_post. cbn zeta.
  set (tb1 := fold_left (record_post_mention _ _ _) _ tb).
  apply samples_kept_trans with tb1.
  - apply fold_kept. intros. apply record_post_mention_kept.
  - apply fold_kept. intros. apply scan_comment_kept.
Qed.

Lemma scan_posts_kept cfg reg sub posts : forall tb,
  samples_kept tb (scan_posts cfg reg sub tb posts).
Proof.
  induction posts as [| p posts IH]; intros tb; cbn [scan_posts].
  - apply samples_kept_refl.
  - destruct (before_cutoff p); [apply samples_kept_refl |].
    eapply samples_kept_trans; [apply scan_post_kept | apply IH].
Qed.

Lemma scan_subreddits_kept cfg reg feeds :
  samples_kept empty_tables (scan_subreddits cfg reg feeds).
Proof.
  unfold scan_subreddits. apply fold_kept.
  intros tb [sub posts]. apply scan_posts_kept.
Qed.

End AggregatorFacts.

(** C6.  A mention of [t] in a post and a mention in a comment both add one
    to the count of [t] in the bucket of the item and one to the count of
    the subreddit for [t], a missing entry counting as zero.  The post
    mention appends the pair of the subreddit and the title, cut to 140
    characters, exactly when [t] has fewer than three samples; the comment
    mention leaves the samples alone.  So over a whole run no ticker has
    more than three samples, and a post only ever extends the samples
    already there. *)
Theorem mention_recorded {U : Unicode} (cfg : Settings) (reg : Registry) (tb : Tables)
  (b : bucket) (sub title t : str) :
  let posted := record_post_mention b sub title tb t in
  let commented := record_comment_mention b sub tb t in
  let old := samples (sample_titles tb) t in
  count (counts posted b) t = S (count (counts tb b) t)
  /\ count (counts commented b) t = S (count (counts tb b) t)
  /\ count (default ∅ (per_sub posted !! t)) sub
     = S (count (default ∅ (per_sub tb !! t)) sub)
  /\ count (default ∅ (per_sub commented !! t)) sub
     = S (count (default ∅ (per_sub tb !! t)) sub)
  /\ samples (sample_titles posted) t
     = (if (length old <? 3)%nat
        then old ++ [(sub, take 140 title)] else old)
  /\ samples (sample_titles commented) t = old
  /\ (forall feeds t',
        (length (samples (sample_titles (scan_subreddits cfg reg feeds)) t')
         <= 3)%nat)
  /\ (forall p t',
        samples (sample_titles tb) t'
          `prefix_of` samples (sample_titles (scan_post cfg reg sub tb p)) t').
Proof.
  cbn zeta. cbn [record_post_mention record_comment_mention counts per_sub
                 sample_titles].
  repeat split.
  - apply counts_incr_eq.
  - apply counts_incr_eq.
  - apply per_sub_incr_eq.
  - apply per_sub_incr_eq.
  - apply samples_add_eq.
  - intros feeds t'.
    destruct (scan_subreddits_kept cfg reg feeds t') as [Hlen _].
    apply Hlen. unfold samples. cbn [empty_tables sample_titles].
    rewrite lookup_empty. cbn. lia.
  - intros p t'. apply (scan_post_kept cfg reg sub tb p t').
Qed.

(** C6, as stated, fails on a comment: the comment [ABCD is moving] is
    counted for ABCD, which has no sample yet, and none is stored. *)
Lemma comment_mention_stores_no_sample :
  let tb := scan_comment (U := ascii_tables) settings Sample.abcd_only
              (lit "stocks") empty_tables Sample.one_comment in
  count (counts tb B0_7) (lit "ABCD") = 1%nat
  /\ count (default ∅ (per_sub tb !! lit "ABCD")) (lit "stocks") = 1%nat
  /\ (length (samples (sample_titles empty_tables) (lit "ABCD")) < 3)%nat
  /\ samples (sample_titles tb) (lit "ABCD") = [].
Proof. cbn zeta. repeat split; vm_compute; try reflexivity; lia. Qed.

(** ** Scorer and ranker *)

Section FloatOrder.
Local Open Scope float_scope.

Lemma SFcompare_swap x y :
  SFcompare y x = option_map CompOpp (SFcompare x y).
Proof.
  destruct x as [sx | sx | | sx mx ex], y as [sy | sy | | sy my ey];
    cbn; try reflexivity;
    try (destruct sx; reflexivity); try (destruct sy; reflexivity);
    try (destruct sx, sy; reflexivity).
  f_equal. rewrite (Z.compare_antisym ex ey).
  pose proof (ZC4 my mx) as Hm.
  change (Pos.compare_cont Eq my mx)
    with (PosDef.Pos.compare_cont Eq my mx) in Hm.
  change (Pos.compare_cont Eq mx my)
    with (PosDef.Pos.compare_cont Eq mx my) in Hm.
  rewrite Hm.
  destruct sx, sy; try reflexivity;
    destruct (ex ?= ey)%Z; cbn; try reflexivity;
    destruct (PosDef.Pos.compare_cont Eq mx my); reflexivity.
Qed.

Lemma SFcompare_None x y :
  SFcompare x y = None -> SFcompare x x = None \/ SFcompare y y = None.
Proof.
  destruct x as [sx | sx | | sx mx ex], y as [sy | sy | | sy my ey];
    cbn; auto; try discriminate;
    try (destruct sx; discriminate); try (destruct sy; discriminate).
Qed.

Lemma ltb_leb x y : (x <? y) = true -> (x <=? y) = true.
Proof.
  rewrite FloatAxioms.ltb_spec, FloatAxioms.leb_spec. unfold SFltb, SFleb.
  destruct (SFcompare _ _) as [[] |]; congruence.
Qed.

Lemma not_ltb_leb x y :
  is_number x -> is_number y -> (x <? y) = false -> (y <=? x) = true.
Proof.
  unfold is_number.
  rewrite !FloatAxioms.eqb_spec, FloatAxioms.ltb_spec, FloatAxioms.leb_spec.
  unfold SFeqb, SFltb, SFleb. intros Hx Hy.
  rewrite (SFcompare_swap (Prim2SF x) (Prim2SF y)).
  destruct (SFcompare (Prim2SF x) (Prim2SF y)) as [[] |] eqn:E; cbn;
    try congruence.
  apply SFcompare_None in E as [E | E]; rewrite E in *; discriminate.
Qed.

Lemma leb_not_ltb x y : (y <=? x) = true -> (x <? y) = false.
Proof.
  rewrite FloatAxioms.ltb_spec, FloatAxioms.leb_spec. unfold SFltb, SFleb.
  rewrite (SFcompare_swap (Prim2SF x) (Prim2SF y)).
  destruct (SFcompare (Prim2SF x) (Prim2SF y)) as [[] |]; cbn; congruence.
Qed.

End FloatOrder.

Section SmallCounts.

Lemma numbers_upto_thresholds :
  numbers_upto MAX_TOTAL_MENTIONS MAX_OLD_MENTIONS_31_90 = true.
Proof. vm_compute. reflexivity. Qed.

Lemma numbers_at_small a c :
  (a <= MAX_TOTAL_MENTIONS)%nat -> (c <= MAX_OLD_MENTIONS_31_90)%nat ->
  is_number (mom_long_of a c)
  /\ is_number (score_of a c (mom_long_of a c)).
Proof.
  intros Ha Hc. pose proof numbers_upto_thresholds as H.
  unfold numbers_upto in H. rewrite forallb_forall in H.
  specialize (H a). rewrite forallb_forall in H.
  assert (numbers_at a c = true) as [H1 H2]%andb_prop.
  { apply H; apply in_seq; lia. }
  by split.
Qed.

Lemma threshold_is_number : is_number MIN_MOMENTUM_RATIO.
Proof. vm_compute. reflexivity. Qed.

End SmallCounts.

Section RankerFacts.

Lemma candidate_fields cs meta t r :
  candidate cs meta t = Some r ->
  row_t r = t
  /\ row_name r = display_name meta t
  /\ row_a r = count (cs B0_7) t
  /\ row_b r = count (cs B8_30) t
  /\ row_c r = count (cs B31_90) t
  /\ row_total r = (row_a r + row_b r + row_c r)%nat
  /\ row_mom_short r = mom_short_of (row_a r) (row_b r)
  /\ row_mom_long r = mom_long_of (row_a r) (row_c r)
  /\ row_score r = score_of (row_a r) (row_c r) (row_mom_long r).
Proof.
  unfold candidate. intros H.
  repeat match type of H with
  | (if ?b then None else _) = Some _ => destruct b; [discriminate |]
  end.
  injection H as <-. cbn. repeat split.
Qed.

Lemma candidate_passes cs meta t :
  is_Some (candidate cs meta t) <->
  (MIN_RECENT_MENTIONS <= count (cs B0_7) t)%nat
  /\ (count (cs B31_90) t <= MAX_OLD_MENTIONS_31_90)%nat
  /\ (count (cs B0_7) t + count (cs B8_30) t + count (cs B31_90) t
      <= MAX_TOTAL_MENTIONS)%nat
  /\ (mom_long_of (count (cs B0_7) t) (count (cs B31_90) t)
      <? MIN_MOMENTUM_RATIO)%float = false.
Proof.
  unfold candidate.
  destruct (Nat.ltb_spec (count (cs B0_7) t) MIN_RECENT_MENTIONS).
  { split; [intros [? ?]; discriminate | lia]. }
  destruct (Nat.ltb_spec MAX_OLD_MENTIONS_31_90 (count (cs B31_90) t)).
  { split; [intros [? ?]; discriminate | lia]. }
  destruct (Nat.ltb_spec MAX_TOTAL_MENTIONS
              (count (cs B0_7) t + count (cs B8_30) t + count (cs B31_90) t)).
  { split; [intros [? ?]; discriminate | lia]. }
  destruct (_ <? _)%float.
  - split; [intros [? ?]; discriminate | intros (_ & _ & _ & ?); discriminate].
  - split; [intros _; repeat split; assumption | intros _; eexists; reflexivity].
Qed.

Lemma build_rows_elem cs meta ts r :
  r ∈ build_rows cs meta ts <->
  exists t, t ∈ ts /\ candidate cs meta t = Some r.
Proof.
  induction ts as [| t ts IH]; cbn [build_rows].
  - split; [intros []%elem_of_nil | intros (t & []%elem_of_nil & _)].
  - destruct (candidate cs meta t) as [r0 |] eqn:E.
    + rewrite elem_of_cons, IH. split.
      * intros [-> | (t' & Ht' & Hc)];
          [exists t; split; [by left | exact E]
          | exists t'; split; [by right | exact Hc]].
      * intros (t' & [-> | Ht']%elem_of_cons & Hc).
        -- left. congruence.
        -- right. by exists t'.
    + rewrite IH. split.
      * intros (t' & Ht' & Hc). exists t'. split; [by right | exact Hc].
      * intros (t' & [-> | Ht']%elem_of_cons & Hc); [congruence |].
        by exists t'.
Qed.

Lemma insert_desc_perm r rows : insert_desc r rows ≡ₚ r :: rows.
Proof.
  induction rows as [| r' rows IH]; cbn [insert_desc]; [done |].
  destruct (_ <? _)%float; [| done].
  rewrite IH. apply Permutation_swap.
Qed.

Lemma sort_desc_perm rows : sort_desc rows ≡ₚ rows.
Proof.
  induction rows as [| r rows IH]; cbn [sort_desc]; [done |].
  by rewrite insert_desc_perm, IH.
Qed.

Lemma ranked_rows_elem cs meta ts r :
  r ∈ ranked_rows cs meta ts <->
  exists t, t ∈ ts /\ candidate cs meta t = Some r.
Proof.
  unfold ranked_rows. rewrite sort_desc_perm. apply build_rows_elem.
Qed.


Lemma candidate_small cs meta t r :
  candidate cs meta t = Some r ->
  (row_a r <= MAX_TOTAL_MENTIONS)%nat
  /\ (row_c r <= MAX_OLD_MENTIONS_31_90)%nat.
Proof.
  intros H.
  destruct (proj1 (candidate_passes cs meta t)) as (_ & Hc & Htot & _);
    [by eexists |].
  apply candidate_fields in H as (_ & _ & -> & _ & -> & _). lia.
Qed.

Lemma candidate_number cs meta t r :
  candidate cs meta t = Some r -> number_row r.
Proof.
  intros H. destruct (candidate_small _ _ _ _ H) as [Ha Hc].
  apply candidate_fields in H as (_ & _ & _ & _ & _ & _ & _ & Hm & Hs).
  unfold number_row. rewrite Hs, Hm. by apply numbers_at_small.
Qed.

Lemma build_rows_numbers cs meta ts :
  Forall number_row (build_rows cs meta ts).
Proof.
  apply Forall_forall. intros r (t & _ & Hc)%build_rows_elem.
  by eapply candidate_number.
Qed.

Lemma insert_desc_head r0 r rows :
  score_ge r0 r -> HdRel score_ge r0 rows ->
  HdRel score_ge r0 (insert_desc r rows).
Proof.
  intros Hr Hrows. destruct rows as [| r' rows]; cbn [insert_desc].
  - by constructor.
  - destruct (_ <? _)%float; constructor; [by inversion Hrows | exact Hr].
Qed.

Lemma insert_desc_sorted r rows :
  number_row r -> Forall number_row rows ->
  Sorted score_ge rows -> Sorted score_ge (insert_desc r rows).
Proof.
  intros Hr. induction rows as [| r' rows IH]; intros Hnum Hsorted;
    cbn [insert_desc].
  - by repeat constructor.
  - apply Forall_cons in Hnum as [Hr' Hnum].
    apply Sorted_inv in Hsorted as [Hsorted Hhd].
    destruct (row_score r <? row_score r')%float eqn:Hlt.
    + constructor; [by apply IH |].
      apply insert_desc_head; [| exact Hhd]. by apply ltb_leb.
    + constructor; [by constructor |].
      constructor. by apply not_ltb_leb.
Qed.

Lemma sort_desc_sorted rows :
  Forall number_row rows -> Sorted score_ge (sort_desc rows).
Proof.
  induction rows as [| r rows IH]; cbn [sort_desc]; [constructor |].
  intros [Hr Hrows]%Forall_cons.
  apply insert_desc_sorted; [exact Hr | by rewrite sort_desc_perm | by apply IH].
Qed.

Lemma sorted_adjacent (rows : list Row) : forall i r1 r2,
  Sorted score_ge rows ->
  rows !! i = Some r1 -> rows !! S i = Some r2 -> score_ge r1 r2.
Proof.
  induction rows as [| r rows IH]; intros i r1 r2 Hs H1 H2; [discriminate |].
  apply Sorted_inv in Hs as [Hs Hhd].
  destruct i as [| i]; cbn in H1, H2.
  - injection H1 as <-. destruct rows as [| r' rows]; [discriminate |].
    cbn in H2. injection H2 as <-. by inversion Hhd.
  - by eapply IH.
Qed.

End RankerFacts.

Lemma ranked_iff_thresholds (cs : bucket -> gmap str nat)
  (meta : gmap str SymbolInfo) (ts : list str) (t : str) :
  ts ≡ₚ elements (all_tickers cs) ->
  t ∈ all_tickers cs ->
  (exists r, r ∈ ranked_rows cs meta ts /\ row_t r = t)
  <->
  (MIN_RECENT_MENTIONS <= count (cs B0_7) t)%nat
  /\ (count (cs B31_90) t <= MAX_OLD_MENTIONS_31_90)%nat
  /\ (count (cs B0_7) t + count (cs B8_30) t + count (cs B31_90) t
      <= MAX_TOTAL_MENTIONS)%nat
  /\ (MIN_MOMENTUM_RATIO
      <=? mom_long_of (count (cs B0_7) t) (count (cs B31_90) t))%float = true.
Proof.
  intros Hts Ht.
  assert (t ∈ ts) as Hin by (rewrite Hts; by apply elem_of_elements).
  split.
  - intros (r & (t' & _ & Hc)%ranked_rows_elem & Hrt).
    assert (t' = t) as -> by (apply candidate_fields in Hc as [? _]; congruence).
    destruct (proj1 (candidate_passes cs meta t)) as (Ha & Hc' & Htot & Hm);
      [by eexists |].
    repeat split; try assumption.
    apply not_ltb_leb; [| apply threshold_is_number | exact Hm].
    apply numbers_at_small; lia.
  - intros (Ha & Hc & Htot & Hm).
    destruct (proj2 (candidate_passes cs meta t)) as [r Hr].
    { repeat split; try assumption. by apply leb_not_ltb. }
    exists r. split.
    + apply ranked_rows_elem. by exists t.
    + by apply candidate_fields in Hr as [? _].
Qed.

(** C1.  A ticker with a counted mention has a row in the ranked output
    exactly when its recent count is at least 3 ([MIN_RECENT_MENTIONS]),
    its old count at most 25 ([MAX_OLD_MENTIONS_31_90]), its total at most
    120 ([MAX_TOTAL_MENTIONS]) and its long momentum, the binary64 quotient
    (recent + 1) / (old + 1), at least 1.8 ([MIN_MOMENTUM_RATIO]); [ts] is
    the order in which the set of tickers is iterated. *)
Theorem prebloom_thresholds (cs : bucket -> gmap str nat)
  (meta : gmap str SymbolInfo) (ts : list str) (t : str) :
  ts ≡ₚ elements (all_tickers cs) ->
  t ∈ all_tickers cs ->
  (exists r, r ∈ ranked_rows cs meta ts /\ row_t r = t)
  <->
  (3 <= count (cs B0_7) t)%nat
  /\ (count (cs B31_90) t <= 25)%nat
  /\ (count (cs B0_7) t + count (cs B8_30) t + count (cs B31_90) t
      <= 120)%nat
  /\ (1.8 <=? to_float (count (cs B0_7) t + 1)
               / to_float (count (cs B31_90) t + 1))%float = true.
Proof. exact (ranked_iff_thresholds cs meta ts t). Qed.

(** Five recent mentions put ABCD in the ranking; four recent and two old
    ones, with the momentum 5/3 below 1.8, keep it out. *)
Lemma prebloom_thresholds_witness :
  (exists r,
     r ∈ ranked_rows Sample.blooming_counts (meta Sample.abcd_only)
           (elements (all_tickers Sample.blooming_counts))
     /\ row_t r = lit "ABCD")
  /\ ~ (exists r,
          r ∈ ranked_rows Sample.fading_counts (meta Sample.abcd_only)
                (elements (all_tickers Sample.fading_counts))
          /\ row_t r = lit "ABCD").
Proof.
  split.
  - apply (prebloom_thresholds Sample.blooming_counts (meta Sample.abcd_only)
             (elements (all_tickers Sample.blooming_counts)) (lit "ABCD")).
    + reflexivity.
    + refine (bool_decide_unpack _ _). vm_compute. exact I.
    + repeat split; vm_compute; first [reflexivity | lia].
  - intros H.
    apply (prebloom_thresholds Sample.fading_counts (meta Sample.abcd_only)
             (elements (all_tickers Sample.fading_counts)) (lit "ABCD"))
      in H as (_ & _ & _ & Hm).
    + vm_compute in Hm. discriminate Hm.
    + reflexivity.
    + refine (bool_decide_unpack _ _). vm_compute. exact I.
Defined.

(** The scenario of four recent and two old mentions: the momentum 5/3 is
    below the threshold and the ranking is empty. *)
Example fading_ticker_excluded :
  count (Sample.fading_counts B0_7) (lit "ABCD") = 4%nat
  /\ count (Sample.fading_counts B8_30) (lit "ABCD") = 0%nat
  /\ count (Sample.fading_counts B31_90) (lit "ABCD") = 2%nat
  /\ (mom_long_of 4 2 <? MIN_MOMENTUM_RATIO)%float = true
  /\ ranked_rows Sample.fading_counts (meta Sample.abcd_only)
       (elements (all_tickers Sample.fading_counts)) = [].
Proof. repeat split; vm_compute; reflexivity. Qed.

(** The scenario of five recent mentions: one row, momentum 6, score 28. *)
Example blooming_ticker_ranked :
  ranked_rows Sample.blooming_counts (meta Sample.abcd_only)
    (elements (all_tickers Sample.blooming_counts)) = [Sample.abcd_row 5 6 28].
Proof. vm_compute. reflexivity. Qed.

(** C2.  Every row of the ranked output carries the three bucket counts of
    its ticker, their sum as total, the short momentum
    (recent + 1) / (mid + 1), the long momentum (recent + 1) / (old + 1)
    and the score recent * 2.0 + long momentum * 3.0 - old * 0.25, all in
    binary64 arithmetic; five recent mentions and no other give the long
    momentum 6.0 and the score 28.0. *)
Theorem row_formulas (cs : bucket -> gmap str nat)
  (meta : gmap str SymbolInfo) (ts : list str) (r : Row) :
  r ∈ ranked_rows cs meta ts ->
  row_a r = count (cs B0_7) (row_t r)
  /\ row_b r = count (cs B8_30) (row_t r)
  /\ row_c r = count (cs B31_90) (row_t r)
  /\ row_total r = (row_a r + row_b r + row_c r)%nat
  /\ row_mom_short r
     = (to_float (row_a r + 1) / to_float (row_b r + 1))%float
  /\ row_mom_long r
     = (to_float (row_a r + 1) / to_float (row_c r + 1))%float
  /\ row_score r
     = (to_float (row_a r) * 2.0 + row_mom_long r * 3.0
        - to_float (row_c r) * 0.25)%float
  /\ mom_long_of 5 0 = 6.0%float
  /\ score_of 5 0 (mom_long_of 5 0) = 28.0%float.
Proof.
  intros (t & _ & Hc)%ranked_rows_elem.
  apply candidate_fields in Hc
    as (<- & _ & Ha & Hb & Hc & Htot & Hms & Hml & Hs).
  repeat split; try assumption; reflexivity.
Qed.

Lemma row_formulas_witness :
  row_a (Sample.abcd_row 5 6 28) = count (Sample.blooming_counts B0_7) (lit "ABCD")
  /\ row_total (Sample.abcd_row 5 6 28) = 5%nat
  /\ row_mom_long (Sample.abcd_row 5 6 28) = (to_float 6 / to_float 1)%float
  /\ row_score (Sample.abcd_row 5 6 28)
     = (to_float 5 * 2.0 + 6.0 * 3.0 - to_float 0 * 0.25)%float.
Proof.
  destruct (row_formulas Sample.blooming_counts (meta Sample.abcd_only)
              (elements (all_tickers Sample.blooming_counts)) (Sample.abcd_row 5 6 28))
    as (Ha & _ & _ & Htot & _ & Hml & Hs & _).
  - rewrite blooming_ticker_ranked. apply list_elem_of_here.
  - repeat split; assumption.
Defined.

(** C9.  The ranked output is in non-increasing order of score: of two
    adjacent rows the earlier has a score greater than or equal to the
    later one's. *)
Theorem ranked_rows_descending (cs : bucket -> gmap str nat)
  (meta : gmap str SymbolInfo) (ts : list str)
  (i : nat) (r1 r2 : Row) :
  ranked_rows cs meta ts !! i = Some r1 ->
  ranked_rows cs meta ts !! S i = Some r2 ->
  (row_score r2 <=? row_score r1)%float = true.
Proof.
  intros H1 H2.
  apply (sorted_adjacent (ranked_rows cs meta ts) i r1 r2); try assumption.
  apply sort_desc_sorted, build_rows_numbers.
Qed.

Lemma ranked_rows_descending_witness :
  (row_score (Sample.abcd_row 3 4 18) <=? row_score Sample.newc_row)%float = true.
Proof.
  apply (ranked_rows_descending Sample.two_ticker_counts
           (meta Sample.two_ticker_registry)
           (elements (all_tickers Sample.two_ticker_counts)) 0).
  - vm_compute. reflexivity.
  - vm_compute. reflexivity.
Defined.


(** * Part III: further properties *)

Set Warnings "-clear-no-such-hyp".

(** ** Symbol registry *)

Section RegistryMore.
Context {U : Unicode}.

Lemma fold_left_invariant {A B} (P : A -> Prop) (f : A -> B -> A) l :
  (forall a b, P a -> P (f a b)) -> forall a, P a -> P (fold_left f l a).
Proof.
  intros Hf. induction l as [| b l IH]; intros a Ha; cbn; [done |].
  apply IH. by apply Hf.
Qed.

Lemma load_nasdaq_listed_inv text reg reg' :
  load_nasdaq_listed text reg = Some reg' ->
  exists h rows si ni ei,
    _parse_pipe_file text = Some (h, rows)
    /\ PyStr.index (lit "Symbol") h = Some si
    /\ PyStr.index (lit "Security Name") h = Some ni
    /\ PyStr.index (lit "ETF") h = Some ei
    /\ reg' = fold_left (nasdaq_row si ni ei) rows reg.
Proof.
  unfold load_nasdaq_listed. intros H.
  destruct (_parse_pipe_file text) as [[h rows] |] eqn:Ep; [| discriminate].
  cbn [mbind option_bind] in H.
  destruct (PyStr.index (lit "Symbol") h) as [si |] eqn:Es; [| discriminate].
  destruct (PyStr.index (lit "Security Name") h) as [ni |] eqn:En; [| discriminate].
  destruct (PyStr.index (lit "ETF") h) as [ei |] eqn:Ee; [| discriminate].
  injection H as <-. by exists h, rows, si, ni, ei.
Qed.

Lemma load_other_listed_inv text reg reg' :
  load_other_listed text reg = Some reg' ->
  exists h rows si ni ei,
    _parse_pipe_file text = Some (h, rows)
    /\ PyStr.index (lit "ACT Symbol") h = Some si
    /\ PyStr.index (lit "Security Name") h = Some ni
    /\ PyStr.index (lit "ETF") h = Some ei
    /\ reg' = fold_left (other_row si ni ei) rows reg.
Proof.
  unfold load_other_listed. intros H.
  destruct (_parse_pipe_file text) as [[h rows] |] eqn:Ep; [| discriminate].
  cbn [mbind option_bind] in H.
  destruct (PyStr.index (lit "ACT Symbol") h) as [si |] eqn:Es; [| discriminate].
  destruct (PyStr.index (lit "Security Name") h) as [ni |] eqn:En; [| discriminate].
  destruct (PyStr.index (lit "ETF") h) as [ei |] eqn:Ee; [| discriminate].
  injection H as <-. by exists h, rows, si, ni, ei.
Qed.

Lemma nasdaq_row_covers si ni ei reg parts :
  meta_covers reg -> meta_covers (nasdaq_row si ni ei reg parts).
Proof.
  unfold meta_covers, nasdaq_row. intros H.
  destruct (row_symbol _ _ _ parts) as [[sym info] |]; [| exact H].
  cbn [meta verified]. by rewrite dom_insert_L, H.
Qed.

Lemma other_row_covers si ni ei reg parts :
  meta_covers reg -> meta_covers (other_row si ni ei reg parts).
Proof.
  unfold meta_covers, other_row. intros H.
  destruct (row_symbol _ _ _ parts) as [[sym info] |]; [| exact H].
  cbn [meta verified]. rewrite setdefault_union, dom_union_L, dom_singleton_L.
  rewrite H. set_solver.
Qed.

Lemma load_meta_covers text1 text2 reg :
  load_symbol_metadata text1 text2 = Some reg -> meta_covers reg.
Proof.
  unfold load_symbol_metadata. intros H.
  destruct (load_nasdaq_listed text1 empty_registry) as [reg1 |] eqn:E1;
    [| discriminate].
  cbn in H.
  apply load_nasdaq_listed_inv in E1
    as (h1 & rows1 & s1 & n1 & e1 & _ & _ & _ & _ & ->).
  apply load_other_listed_inv in H
    as (h2 & rows2 & s2 & n2 & e2 & _ & _ & _ & _ & ->).
  apply (fold_left_invariant meta_covers);
    [intros; by apply other_row_covers |].
  apply (fold_left_invariant meta_covers);
    [intros; by apply nasdaq_row_covers |].
  unfold meta_covers. cbn. by rewrite dom_empty_L.
Qed.

(** X3.  After a successful load the metadata mapping has a record for
    every verified symbol and for no other key. *)
Theorem metadata_covers_universe (text1 text2 : str) (reg : Registry) :
  load_symbol_metadata text1 text2 = Some reg ->
  dom (meta reg) = verified reg.
Proof. apply load_meta_covers. Qed.

Lemma other_row_verified si ni ei reg parts :
  verified (other_row si ni ei reg parts)
  = verified reg ∪ verified (other_row si ni ei empty_registry parts).
Proof.
  unfold other_row.
  destruct (row_symbol _ _ _ parts) as [[sym info] |];
    cbn [verified empty_registry]; set_solver.
Qed.

Lemma fold_other_rows_verified si ni ei rows : forall reg,
  verified (fold_left (other_row si ni ei) rows reg)
  = verified reg
    ∪ verified (fold_left (other_row si ni ei) rows empty_registry).
Proof.
  induction rows as [| parts rows IH]; intros reg; cbn [fold_left].
  - cbn. set_solver.
  - rewrite (IH (other_row _ _ _ reg parts)).
    rewrite (IH (other_row _ _ _ empty_registry parts)).
    rewrite (other_row_verified _ _ _ reg). set_solver.
Qed.

(** X4.  The verified universe of a successful load is the union of the
    symbols each listing yields on its own. *)
Theorem universe_is_union (text1 text2 : str) (reg : Registry) :
  load_symbol_metadata text1 text2 = Some reg ->
  exists reg1 reg2,
    load_nasdaq_listed text1 empty_registry = Some reg1
    /\ load_other_listed text2 empty_registry = Some reg2
    /\ verified reg = verified reg1 ∪ verified reg2.
Proof.
  unfold load_symbol_metadata. intros H.
  destruct (load_nasdaq_listed text1 empty_registry) as [reg1 |] eqn:E1;
    [| discriminate].
  cbn in H. exists reg1.
  destruct (load_other_listed_inv _ _ _ H)
    as (h2 & rows2 & s2 & n2 & e2 & Hp & Hs & Hn & He & ->).
  exists (fold_left (other_row s2 n2 e2) rows2 empty_registry).
  split; [reflexivity |]. split.
  - unfold load_other_listed. rewrite Hp. cbn. rewrite Hs. cbn.
    rewrite Hn. cbn. by rewrite He.
  - apply fold_other_rows_verified.
Qed.

Lemma nasdaq_rows_keep si ni ei sym rows : forall reg,
  (forall p, p ∈ rows -> ~ names_symbol si ni ei sym p) ->
  meta (fold_left (nasdaq_row si ni ei) rows reg) !! sym = meta reg !! sym.
Proof.
  induction rows as [| p rows IH]; intros reg Hno; cbn [fold_left]; [done |].
  rewrite IH by (intros q Hq; apply Hno; by right).
  unfold nasdaq_row.
  destruct (row_symbol si ni ei p) as [[s i] |] eqn:E; [| done].
  cbn [meta]. apply lookup_insert_ne. intros ->.
  apply (Hno p); [by left | by exists i].
Qed.

(** X5.  In the first listing a later row overwrites an earlier one: the
    record kept for a symbol is that of its last row. *)
Theorem nasdaq_last_row_wins (text : str) (reg : Registry)
  (h : list str) (pre post : list (list str)) (parts : list str)
  (si ni ei : nat) (sym : str) (info : SymbolInfo) :
  _parse_pipe_file text = Some (h, pre ++ parts :: post) ->
  PyStr.index (lit "Symbol") h = Some si ->
  PyStr.index (lit "Security Name") h = Some ni ->
  PyStr.index (lit "ETF") h = Some ei ->
  row_symbol si ni ei parts = Some (sym, info) ->
  (forall p, p ∈ post -> ~ names_symbol si ni ei sym p) ->
  exists reg',
    load_nasdaq_listed text reg = Some reg'
    /\ meta reg' !! sym = Some info.
Proof.
  intros Hp Hs Hn He Hrow Hpost. eexists. split.
  - unfold load_nasdaq_listed. rewrite Hp. cbn. rewrite Hs. cbn.
    rewrite Hn. cbn. rewrite He. cbn. reflexivity.
  - rewrite fold_left_app. cbn [fold_left].
    rewrite nasdaq_rows_keep by exact Hpost.
    unfold nasdaq_row at 1. rewrite Hrow. cbn [meta].
    apply lookup_insert_eq.
Qed.

Lemma other_rows_keep_some si ni ei sym info rows : forall reg,
  meta reg !! sym = Some info ->
  meta (fold_left (other_row si ni ei) rows reg) !! sym = Some info.
Proof.
  induction rows as [| p rows IH]; intros reg Hreg; cbn [fold_left]; [done |].
  apply IH. unfold other_row.
  destruct (row_symbol si ni ei p) as [[s i] |]; [| done].
  cbn [meta]. rewrite setdefault_union, lookup_union, Hreg.
  by destruct ({[s := i]} !! sym).
Qed.

Lemma other_rows_keep_none si ni ei sym rows : forall reg,
  (forall p, p ∈ rows -> ~ names_symbol si ni ei sym p) ->
  meta (fold_left (other_row si ni ei) rows reg) !! sym = meta reg !! sym.
Proof.
  induction rows as [| p rows IH]; intros reg Hno; cbn [fold_left]; [done |].
  rewrite IH by (intros q Hq; apply Hno; by right).
  unfold other_row.
  destruct (row_symbol si ni ei p) as [[s i] |] eqn:E; [| done].
  cbn [meta]. rewrite setdefault_union, lookup_union.
  rewrite lookup_singleton_ne; [by destruct (meta reg !! sym) |].
  intros ->. apply (Hno p); [by left | by exists i].
Qed.

(** X6.  In the second listing the first row of a symbol wins: for a
    symbol the registry has no record of, the record kept is that of its
    first row, whatever rows follow. *)
Theorem other_first_row_wins (text : str) (reg : Registry)
  (h : list str) (pre post : list (list str)) (parts : list str)
  (si ni ei : nat) (sym : str) (info : SymbolInfo) :
  _parse_pipe_file text = Some (h, pre ++ parts :: post) ->
  PyStr.index (lit "ACT Symbol") h = Some si ->
  PyStr.index (lit "Security Name") h = Some ni ->
  PyStr.index (lit "ETF") h = Some ei ->
  row_symbol si ni ei parts = Some (sym, info) ->
  (forall p, p ∈ pre -> ~ names_symbol si ni ei sym p) ->
  meta reg !! sym = None ->
  exists reg',
    load_other_listed text reg = Some reg'
    /\ meta reg' !! sym = Some info.
Proof.
  intros Hp Hs Hn He Hrow Hpre Hreg. eexists. split.
  - unfold load_other_listed. rewrite Hp. cbn. rewrite Hs. cbn.
    rewrite Hn. cbn. rewrite He. cbn. reflexivity.
  - rewrite fold_left_app. cbn [fold_left].
    apply other_rows_keep_some.
    unfold other_row at 1. rewrite Hrow. cbn [meta].
    rewrite setdefault_union, lookup_union.
    rewrite other_rows_keep_none by exact Hpre.
    rewrite Hreg, lookup_singleton_eq. done.
Qed.

End RegistryMore.

(** ** Category filter and token extractor *)

Section ExtractorMore.
Import PyStr TickerRe.
Context {U : Unicode}.

Lemma filtered_not_extracted cfg text verified meta t :
  passes_category_filters cfg t meta = false ->
  t ∉ extract_tickers cfg text verified meta.
Proof.
  intros Hf Hin. unfold extract_tickers in Hin.
  destruct (negb (nonempty text)); [by apply elem_of_nil in Hin |].
  apply extract_hits_sound in Hin as (_ & _ & _ & _ & _ & _ & _ & _ & Hp).
  congruence.
Qed.

(** X7.  With [EXCLUDE_ETFS] on, a symbol whose record has the ETF flag is
    never returned by [extract_tickers], whatever the text. *)
Theorem etf_never_extracted (cfg : Settings) (text : str)
  (verified : gset str) (meta : gmap str SymbolInfo)
  (t : str) (info : SymbolInfo) :
  EXCLUDE_ETFS cfg = true ->
  meta !! t = Some info ->
  is_etf info = true ->
  t ∉ extract_tickers cfg text verified meta.
Proof.
  intros Hcfg Hmeta Hetf. apply filtered_not_extracted.
  unfold passes_category_filters. by rewrite Hmeta, Hcfg, Hetf.
Qed.

Lemma has_any_intro name keywords k :
  nonempty name = true -> k ∈ keywords ->
  contains k (upper name) = true ->
  security_name_has_any name keywords = true.
Proof.
  intros Hne Hk Hc. unfold security_name_has_any. rewrite Hne. cbn [negb].
  apply existsb_exists. exists k. split; [by apply list_elem_of_In | exact Hc].
Qed.

(** X8.  A symbol whose non-empty security name, in capitals, contains a
    keyword of a list that is switched on (ADR or biotech) is never
    returned by [extract_tickers], whatever the text. *)
Theorem keyword_never_extracted (cfg : Settings) (text : str)
  (verified : gset str) (meta : gmap str SymbolInfo)
  (t k : str) (info : SymbolInfo) :
  meta !! t = Some info ->
  nonempty (name info) = true ->
  contains k (upper (name info)) = true ->
  (EXCLUDE_ADRS cfg = true /\ k ∈ ADR_KEYWORDS cfg)
  \/ (EXCLUDE_BIOTECH cfg = true /\ k ∈ BIOTECH_KEYWORDS cfg) ->
  t ∉ extract_tickers cfg text verified meta.
Proof.
  intros Hmeta Hne Hc Hk. apply filtered_not_extracted.
  unfold passes_category_filters. rewrite Hmeta.
  destruct (EXCLUDE_ETFS cfg && is_etf info); [reflexivity |].
  destruct Hk as [[Hsw Hk] | [Hsw Hk]]; rewrite Hsw.
  - by rewrite (has_any_intro _ _ k Hne Hk Hc).
  - rewrite (has_any_intro (name info) (BIOTECH_KEYWORDS cfg) k Hne Hk Hc).
    by destruct (_ && _).
Qed.

Lemma startswith_all_chars p k : forall s,
  all_chars p s = true -> startswith k s = true -> all_chars p k = true.
Proof.
  induction k as [| a k IH]; intros s Hs Hk; [reflexivity |].
  destruct s as [| b s]; [discriminate |].
  cbn [all_chars forallb startswith] in *.
  apply andb_prop in Hs as [Hb Hs], Hk as [Hab Hk].
  apply N.eqb_eq in Hab as ->. rewrite Hb. cbn [andb]. by eapply IH.
Qed.

Lemma contains_all_chars p k s :
  all_chars p s = true -> contains k s = true -> all_chars p k = true.
Proof.
  induction s as [| b s IH]; cbn [contains]; intros Hs Hk.
  - rewrite orb_false_r in Hk. by eapply startswith_all_chars.
  - apply orb_prop in Hk as [Hk | Hk]; [by eapply startswith_all_chars |].
    cbn [all_chars forallb] in Hs. apply andb_prop in Hs as [_ Hs].
    by apply IH.
Qed.

Lemma upper_no_lower s :
  upper_never_lowers U ->
  all_chars (fun c => negb (is_lower_letter c)) (upper s) = true.
Proof.
  intros HU. induction s as [| c s IH]; cbn [upper]; [reflexivity |].
  by rewrite all_chars_app, (HU c), IH.
Qed.

(** X9.  The name is upper-cased before the test and the keywords are
    not: when the upper-case mapping yields no letter of a-z, as Python's
    does, a list of keywords that each hold a letter of a-z matches no
    security name. *)
Theorem lowercase_keyword_never_matches (name : str)
  (keywords : list str) :
  upper_never_lowers U ->
  Forall has_lowercase keywords ->
  security_name_has_any name keywords = false.
Proof.
  intros HU Hall. unfold security_name_has_any.
  destruct (negb (nonempty name)); [reflexivity |].
  apply not_true_is_false. intros (k & Hk & Hc)%existsb_exists.
  rewrite Forall_forall in Hall.
  specialize (Hall k (proj2 (list_elem_of_In _ _) Hk)).
  unfold has_lowercase in Hall.
  rewrite (contains_all_chars _ k (upper name) (upper_no_lower name HU) Hc)
    in Hall.
  discriminate.
Qed.

Lemma take_all (s : str) : take (length s) s = s.
Proof. induction s as [| c s IH]; cbn; [done | by rewrite IH]. Qed.

Lemma drop_all (s : str) : drop (length s) s = [].
Proof. induction s as [| c s IH]; cbn; done. Qed.

Lemma take_length_le k : forall s : str,
  (length (take k s) <= length s)%nat.
Proof.
  induction k as [| k IH]; intros [| c s]; cbn; try lia.
  specialize (IH s). lia.
Qed.

Lemma last_cons_cons (c c' : N) s : last (c :: c' :: s) = last (c' :: s).
Proof. reflexivity. Qed.

Lemma last_char_word s :
  agrees_on_ascii U ->
  nonempty s = true -> all_chars is_upper_letter s = true ->
  is_word_at (last s) = true.
Proof.
  intros HU. induction s as [| c s IH]; [discriminate |]. intros _ Hup.
  cbn [all_chars forallb] in Hup. apply andb_prop in Hup as [Hc Hs].
  destruct s as [| c' s'].
  - cbn [last is_word_at].
    destruct (HU c (upper_letter_ascii c Hc)) as (_ & _ & _ & ->).
    by apply upper_letter_word.
  - rewrite last_cons_cons. by apply IH.
Qed.

Lemma letters_exactly_whole t :
  agrees_on_ascii U ->
  nonempty t = true -> all_chars is_upper_letter t = true ->
  letters_exactly (length t) t = Some t.
Proof.
  intros HU Hne Hup. unfold letters_exactly.
  rewrite take_all, drop_all, Nat.eqb_refl, Hup. cbn [andb head].
  unfold word_boundary. by rewrite (last_char_word t HU Hne Hup).
Qed.

Lemma letters_exactly_long k t :
  (length t < k)%nat -> letters_exactly k t = None.
Proof.
  intros Hlt. unfold letters_exactly.
  destruct (Nat.eqb_spec (length (take k t)) k) as [E |]; [| done].
  pose proof (take_length_le k t). lia.
Qed.

Lemma letters_greedy_whole t :
  agrees_on_ascii U ->
  nonempty t = true -> all_chars is_upper_letter t = true ->
  (length t <= 6)%nat ->
  letters_greedy t = Some t.
Proof.
  intros HU Hne Hup Hlen.
  pose proof (letters_exactly_whole t HU Hne Hup) as Hw.
  assert (1 <= length t)%nat as Hpos by (by apply nonempty_length).
  unfold letters_greedy.
  destruct (length t) as [| [| [| [| [| [| [| n]]]]]]] eqn:E; try lia;
    repeat (rewrite letters_exactly_long by lia); by rewrite Hw.
Qed.

Lemma match_at_not_dollar c s :
  c <> DOLLAR -> match_at (c :: s) = letters_greedy (c :: s).
Proof.
  intros Hc. unfold match_at.
  by destruct (N.eqb_spec c DOLLAR).
Qed.

Lemma findall_from_skip_all s : forall skip,
  (length s <= skip)%nat -> findall_from skip s = [].
Proof.
  induction s as [| c s IH]; intros skip Hle; [reflexivity |].
  cbn in Hle. destruct skip as [| k]; [lia |]. cbn. apply IH. lia.
Qed.

Lemma findall_ticker t :
  agrees_on_ascii U ->
  nonempty t = true -> all_chars is_upper_letter t = true ->
  (length t <= 6)%nat ->
  findall t = [t] /\ findall (DOLLAR :: t) = [DOLLAR :: t].
Proof.
  intros HU Hne Hup Hlen.
  pose proof (letters_greedy_whole t HU Hne Hup Hlen) as Hg.
  destruct t as [| c t']; [discriminate |].
  assert (is_upper_letter c = true) as Hc
    by (cbn in Hup; by apply andb_prop in Hup as [? _]).
  split.
  - unfold findall. cbn [findall_from].
    rewrite (match_at_not_dollar c t' (upper_letter_not_dollar c Hc)), Hg.
    f_equal. apply findall_from_skip_all. cbn [length]. lia.
  - unfold findall. cbn [findall_from]. unfold match_at at 1.
    rewrite N.eqb_refl, Hg. f_equal.
    apply findall_from_skip_all. exact (Nat.le_refl _).
Qed.

Lemma capitals_isalpha t :
  agrees_on_ascii U ->
  nonempty t = true -> all_chars is_upper_letter t = true -> isalpha t = true.
Proof.
  intros HU Hne Hup. unfold isalpha. rewrite Hne. cbn [andb]. clear Hne.
  induction t as [| c t IH]; [done |]. cbn [all_chars forallb] in *.
  apply andb_prop in Hup as [Hc Ht].
  destruct (HU c (upper_letter_ascii c Hc)) as (_ & -> & _).
  rewrite (upper_letter_alpha c Hc). cbn [andb]. by apply IH.
Qed.

Lemma upper_dollar t :
  agrees_on_ascii U -> upper (DOLLAR :: t) = DOLLAR :: upper t.
Proof.
  intros HU. cbn [upper].
  destruct (HU DOLLAR) as (-> & _); [unfold ascii_char, DOLLAR; lia |].
  reflexivity.
Qed.

(** X11.  A text that is just a ticker, or a dollar and a ticker, gives
    that ticker once, when the ticker is one to five capital letters, is
    verified, is in neither exclusion set and passes the category
    filter; the tables are Python's on ASCII. *)
Theorem bare_ticker_extracted (cfg : Settings) (verified : gset str)
  (meta : gmap str SymbolInfo) (t : str) :
  agrees_on_ascii U ->
  capitals t ->
  (length t <= 5)%nat ->
  t ∈ verified ->
  t ∉ STOPWORDS cfg ->
  t ∉ EXCLUDE_TICKERS cfg ->
  passes_category_filters cfg t meta = true ->
  extract_tickers cfg t verified meta = [t]
  /\ extract_tickers cfg (DOLLAR :: t) verified meta = [t].
Proof.
  intros HU [Hpos Hup] Hlen Hver Hstop Hexcl Hpass.
  assert (nonempty t = true) as Hne by (destruct t; [cbn in Hpos; lia | done]).
  destruct (findall_ticker t HU Hne Hup) as [Hf Hfd]; [lia |].
  assert (forall h, lstrip_by (N.eqb DOLLAR) h = t ->
            extract_hits cfg verified meta [h] = [t]) as Hloop.
  { intros h Hh. cbn [extract_hits]. rewrite Hh.
    rewrite (bool_decide_eq_false_2 _ Hstop), (bool_decide_eq_false_2 _ Hexcl).
    rewrite (bool_decide_eq_true_2 _ Hver), (capitals_isalpha t HU Hne Hup).
    rewrite (proj2 (Nat.leb_le _ _) Hpos), (proj2 (Nat.leb_le _ _) Hlen).
    cbn [andb negb]. by rewrite Hpass. }
  unfold extract_tickers. cbn [nonempty negb].
  rewrite Hne, (upper_dollar t HU), (upper_capitals t HU Hup). cbn [negb].
  rewrite Hf, Hfd. split; apply Hloop.
  - by apply upper_run_no_dollar.
  - cbn [lstrip_by]. rewrite N.eqb_refl. by apply upper_run_no_dollar.
Qed.

Section Separator.
Variables (c : N) (b : str).
Hypothesis Hagree : agrees_on_ascii U.
Hypothesis Hsep : separator c.

Lemma sep_not_word : is_word c = false.
Proof.
  destruct Hsep as (Hc & Hw & _).
  destruct (Hagree c Hc) as (_ & _ & _ & ->). exact Hw.
Qed.

Lemma sep_not_upper : is_upper_letter c = false.
Proof.
  destruct Hsep as (_ & Hw & _). destruct (is_upper_letter c) eqn:E; [| done].
  apply upper_letter_word in E. congruence.
Qed.

Lemma sep_upper : to_upper_full c = [c].
Proof.
  destruct Hsep as (Hc & Hw & _).
  destruct (Hagree c Hc) as (-> & _). unfold ascii_upper.
  destruct (is_lower_letter c) eqn:E; [| done].
  unfold ascii_word, ascii_alpha in Hw. rewrite E in Hw.
  by rewrite orb_true_r in Hw.
Qed.

Lemma match_at_separator s : match_at (c :: s) = None.
Proof.
  assert (letters_greedy (c :: s) = None) as Hg.
  { unfold letters_greedy, letters_exactly.
    cbn [take all_chars forallb]. rewrite sep_not_upper. cbn [andb].
    by rewrite !andb_false_r. }
  rewrite match_at_not_dollar; [exact Hg | apply Hsep].
Qed.

Lemma take_app_short k : forall a : str,
  (k <= length a)%nat -> take k (a ++ c :: b) = take k a.
Proof.
  induction k as [| k IH]; intros [| x a] Hk;
    simpl in *; try done; try lia.
  rewrite IH; [done | lia].
Qed.

Lemma drop_app_short k : forall a : str,
  (k < length a)%nat ->
  head (drop k (a ++ c :: b)) = head (drop k a).
Proof.
  induction k as [| k IH]; intros [| x a] Hk;
    simpl in *; try done; try lia.
  apply IH. lia.
Qed.

Lemma drop_app_all (a : str) : drop (length a) (a ++ c :: b) = c :: b.
Proof. induction a as [| x a IH]; simpl; done. Qed.

Lemma take_app_long k : forall a : str,
  (length a < k)%nat ->
  all_chars is_upper_letter (take k (a ++ c :: b)) = false.
Proof.
  induction k as [| k IH]; intros a Hk; [lia |].
  destruct a as [| x a]; simpl in *.
  - by rewrite sep_not_upper.
  - rewrite IH by lia. apply andb_false_r.
Qed.

Lemma letters_exactly_sep k a :
  letters_exactly k (a ++ c :: b) = letters_exactly k a.
Proof.
  destruct (Nat.lt_trichotomy k (length a)) as [Hlt | [-> | Hgt]].
  - unfold letters_exactly.
    by rewrite take_app_short, drop_app_short by lia.
  - unfold letters_exactly.
    rewrite take_app_short, drop_app_all, drop_all by lia.
    unfold word_boundary. cbn [head is_word_at].
    by rewrite sep_not_word.
  - rewrite (letters_exactly_long k a Hgt). unfold letters_exactly.
    rewrite take_app_long by lia. by rewrite andb_false_r.
Qed.

Lemma letters_greedy_sep a :
  letters_greedy (a ++ c :: b) = letters_greedy a.
Proof. unfold letters_greedy. by rewrite !letters_exactly_sep. Qed.

Lemma match_at_sep x a :
  match_at ((x :: a) ++ c :: b) = match_at (x :: a).
Proof.
  pose proof (letters_greedy_sep (x :: a)) as H1.
  pose proof (letters_greedy_sep a) as H2.
  change ((x :: a) ++ c :: b) with (x :: (a ++ c :: b)) in *.
  unfold match_at.
  destruct (x =? DOLLAR)%N; rewrite ?H1, ?H2; reflexivity.
Qed.

Lemma letters_exactly_length k s m :
  letters_exactly k s = Some m -> (length m <= length s)%nat.
Proof.
  unfold letters_exactly. destruct (_ && _); [| discriminate].
  intros [= <-]. apply take_length_le.
Qed.

Lemma letters_greedy_length s m :
  letters_greedy s = Some m -> (length m <= length s)%nat.
Proof.
  unfold letters_greedy. intros H.
  repeat match type of H with
  | match letters_exactly ?k s with _ => _ end = _ =>
      let E := fresh "E" in
      destruct (letters_exactly k s) eqn:E;
        [injection H as <-; by apply letters_exactly_length in E |]
  end.
  discriminate.
Qed.

Lemma match_at_length s m :
  match_at s = Some m -> (length m <= length s)%nat.
Proof.
  unfold match_at. intros H.
  destruct s as [| x s]; [by apply letters_greedy_length in H |].
  destruct (x =? DOLLAR)%N; [| by apply letters_greedy_length].
  destruct (letters_greedy s) as [m' |] eqn:E.
  - injection H as <-. apply letters_greedy_length in E. cbn. lia.
  - by apply letters_greedy_length in H.
Qed.

Lemma findall_from_sep a : forall skip,
  findall_from skip (a ++ c :: b)
  = findall_from skip a ++ findall_from (skip - S (length a)) b.
Proof.
  induction a as [| x a IH]; intros skip.
  - change ([] ++ c :: b) with (c :: b).
    destruct skip as [| k].
    + change (findall_from 0 (c :: b))
        with (match match_at (c :: b) with
              | Some m => m :: findall_from (length m - 1) b
              | None => findall_from 0 b
              end).
      by rewrite (match_at_separator b).
    + cbn [findall_from app length]. f_equal. lia.
  - change ((x :: a) ++ c :: b) with (x :: (a ++ c :: b)).
    cbn [findall_from]. destruct skip as [| k]; [| by rewrite IH].
    change (x :: (a ++ c :: b)) with ((x :: a) ++ c :: b).
    rewrite match_at_sep.
    destruct (match_at (x :: a)) as [m |] eqn:E; [| by rewrite IH].
    rewrite IH. apply match_at_length in E. cbn [length] in E.
    replace (length m - 1 - S (length a))%nat with 0%nat by lia.
    reflexivity.
Qed.

Lemma findall_sep a : findall (a ++ c :: b) = findall a ++ findall b.
Proof. unfold findall. by rewrite findall_from_sep. Qed.

End Separator.

Lemma extract_hits_app cfg verified meta h1 h2 :
  extract_hits cfg verified meta (h1 ++ h2)
  = extract_hits cfg verified meta h1 ++ extract_hits cfg verified meta h2.
Proof.
  induction h1 as [| h h1 IH]; [reflexivity |].
  cbn [app extract_hits]. rewrite IH.
  repeat match goal with |- context [if ?cond then _ else _] =>
    destruct cond; try reflexivity end.
Qed.

Lemma upper_app a s : upper (a ++ s) = upper a ++ upper s.
Proof.
  induction a as [| x a IH]; cbn [upper app]; [done |].
  by rewrite IH, (assoc_L (++)).
Qed.

(** X12.  Tokens do not reach across an ASCII character that is neither a
    word character nor the dollar (a blank, a comma, a line break): the
    tickers of [a], that character and [b] are the tickers of [a] followed
    by the tickers of [b], for all texts [a] and [b]; the tables are
    Python's on ASCII. *)
Theorem extraction_splits_at_separator (cfg : Settings)
  (verified : gset str) (meta : gmap str SymbolInfo)
  (a b : str) (c : N) :
  agrees_on_ascii U ->
  separator c ->
  extract_tickers cfg (a ++ c :: b) verified meta
  = extract_tickers cfg a verified meta
    ++ extract_tickers cfg b verified meta.
Proof.
  intros HU Hsep. unfold extract_tickers.
  assert (nonempty (a ++ c :: b) = true) as -> by (by destruct a).
  cbn [negb]. rewrite upper_app. cbn [upper].
  rewrite (sep_upper c HU Hsep). cbn [app].
  rewrite (findall_sep c (upper b) HU Hsep).
  rewrite extract_hits_app.
  destruct a as [| x a], b as [| y b]; reflexivity.
Qed.

End ExtractorMore.

(** ** Mention aggregator *)

Section AggregatorMore.
Context {U : Unicode}.

Lemma extracted_accepted cfg reg text t :
  t ∈ extract_tickers cfg text (verified reg) (meta reg) ->
  accepted cfg reg t.
Proof. apply extract_tickers_sound. Qed.

Lemma post_tickers_accepted cfg reg p t :
  t ∈ post_tickers cfg reg p -> accepted cfg reg t.
Proof.
  unfold post_tickers. intros [H | H]%elem_of_app;
    by eapply extracted_accepted.
Qed.

Section ScanInvariant.
Variables (cfg : Settings) (reg : Registry).
Variables (feeds : list (str * list Post)) (P : Tables -> Prop).
Hypothesis HP : kept_by_scan cfg reg feeds P.

Lemma fold_tickers_kept (step : Tables -> str -> Tables) tks :
  (forall tb t, t ∈ tks -> P tb -> P (step tb t)) ->
  forall tb, P tb -> P (fold_left step tks tb).
Proof.
  induction tks as [| t tks IH]; intros Hstep tb Htb; cbn; [done |].
  apply IH; [intros; apply Hstep; [by right | done] |].
  apply Hstep; [by left | done].
Qed.

Lemma scan_comment_kept_by sub tb c :
  P tb -> P (scan_comment cfg reg sub tb c).
Proof.
  intros Htb. unfold scan_comment.
  destruct (c_age_days c); [| done]. destruct (negb _); [done |].
  apply fold_tickers_kept; [| done].
  intros tb' t Ht. apply (proj2 HP). by eapply extracted_accepted.
Qed.

Lemma scan_post_kept_by sub posts p tb :
  (sub, posts) ∈ feeds -> p ∈ posts ->
  P tb -> P (scan_post cfg reg sub tb p).
Proof.
  intros Hsub Hp Htb. unfold scan_post. cbn zeta.
  apply (fold_left_invariant P); [intros; by apply scan_comment_kept_by |].
  apply fold_tickers_kept; [| done].
  intros tb' t Ht. by apply (proj1 HP sub posts p).
Qed.

Lemma scan_posts_kept_by sub posts0 posts : forall tb,
  (sub, posts0) ∈ feeds -> (forall p, p ∈ posts -> p ∈ posts0) ->
  P tb -> P (scan_posts cfg reg sub tb posts).
Proof.
  induction posts as [| p posts IH]; intros tb Hsub Hall Htb; cbn [scan_posts];
    [done |].
  destruct (before_cutoff p); [done |].
  apply IH; [done | intros; apply Hall; by right |].
  apply (scan_post_kept_by sub posts0); [done | apply Hall; by left | done].
Qed.

Lemma scan_feeds_kept_by l : forall tb,
  (forall f, f ∈ l -> f ∈ feeds) ->
  P tb ->
  P (fold_left (fun tb '(sub, posts) => scan_posts cfg reg sub tb posts) l tb).
Proof.
  induction l as [| [sub posts] l IH]; intros tb Hall Htb; cbn [fold_left];
    [done |].
  apply IH; [intros; apply Hall; by right |].
  apply (scan_posts_kept_by sub posts); [apply Hall; by left | done | done].
Qed.

Lemma scan_subreddits_kept_by :
  P empty_tables -> P (scan_subreddits cfg reg feeds).
Proof. intros H0. unfold scan_subreddits. by apply scan_feeds_kept_by. Qed.

End ScanInvariant.

Lemma total_of_insert (c : gmap str nat) s v :
  c !! s = None -> total_of (<[s := v]> c) = (v + total_of c)%nat.
Proof.
  intros Hnone. unfold total_of.
  rewrite map_fold_insert_L; [done | | done].
  intros j1 j2 z1 z2 y _ _ _. lia.
Qed.

Lemma total_of_incr c s : total_of (incr c s) = S (total_of c).
Proof.
  unfold incr, count. destruct (c !! s) as [v |] eqn:E; cbn [default].
  - rewrite <- (insert_delete_id c s v E) at 2.
    rewrite <- insert_delete_eq.
    rewrite !total_of_insert by apply lookup_delete_eq. unfold id. lia.
  - by rewrite total_of_insert.
Qed.

Lemma dom_incr c t : dom (incr c t) = {[t]} ∪ dom c.
Proof. unfold incr. apply dom_insert_L. Qed.

Lemma mentions_incr_eq cs b t :
  mentions (counts_incr cs b t) t = S (mentions cs t).
Proof.
  unfold mentions.
  destruct b;
    repeat first [rewrite counts_incr_eq
                 | rewrite counts_incr_other_bucket by done]; lia.
Qed.

Lemma count_counts_incr_ne cs b b' t t' :
  t <> t' -> count (counts_incr cs b t b') t' = count (cs b') t'.
Proof.
  intros Hne. unfold counts_incr.
  destruct (decide (b' = b)); [by apply count_incr_ne | done].
Qed.

Lemma mentions_incr_ne cs b t t' :
  t <> t' -> mentions (counts_incr cs b t) t' = mentions cs t'.
Proof. intros Hne. unfold mentions. by rewrite !count_counts_incr_ne. Qed.

Lemma all_tickers_incr cs b t :
  all_tickers (counts_incr cs b t) = {[t]} ∪ all_tickers cs.
Proof.
  unfold all_tickers, counts_incr.
  destruct b; repeat (destruct (decide _); try done);
    rewrite dom_incr; set_solver.
Qed.

Lemma per_sub_incr_total ps t sub t' :
  total_of (default ∅ (per_sub_incr ps t sub !! t'))
  = if decide (t = t') then S (total_of (default ∅ (ps !! t')))
    else total_of (default ∅ (ps !! t')).
Proof.
  unfold per_sub_incr. destruct (decide (t = t')) as [<- | Hne].
  - rewrite lookup_insert_eq. cbn [default]. apply total_of_incr.
  - by rewrite lookup_insert_ne.
Qed.

Lemma breakdown_kept cfg reg feeds :
  kept_by_scan cfg reg feeds breakdown_adds_up.
Proof.
  split.
  - intros sub posts p b tb t _ _ _ H t'.
    cbn [record_post_mention per_sub counts]. rewrite per_sub_incr_total.
    destruct (decide (t = t')) as [<- | Hne].
    + by rewrite mentions_incr_eq, H.
    + by rewrite mentions_incr_ne, H.
  - intros sub cb tb t _ H t'.
    cbn [record_comment_mention per_sub counts]. rewrite per_sub_incr_total.
    destruct (decide (t = t')) as [<- | Hne].
    + by rewrite mentions_incr_eq, H.
    + by rewrite mentions_incr_ne, H.
Qed.

(** X13.  After any scan, for every ticker the counts by subreddit add up
    to the counts of the three age buckets. *)
Theorem subreddit_breakdown_adds_up (cfg : Settings) (reg : Registry)
  (feeds : list (str * list Post)) (t : str) :
  let tb := scan_subreddits cfg reg feeds in
  total_of (default ∅ (per_sub tb !! t))
  = (count (counts tb B0_7) t + count (counts tb B8_30) t
     + count (counts tb B31_90) t)%nat.
Proof.
  apply (scan_subreddits_kept_by cfg reg feeds breakdown_adds_up).
  - apply breakdown_kept.
  - intros t'. reflexivity.
Qed.

Lemma counts_incr_keys cfg reg cs b t :
  accepted cfg reg t ->
  (forall b' t', t' ∈ dom (cs b') ->
     accepted cfg reg t' /\ (1 <= count (cs b') t')%nat) ->
  forall b' t', t' ∈ dom (counts_incr cs b t b') ->
    accepted cfg reg t' /\ (1 <= count (counts_incr cs b t b') t')%nat.
Proof.
  intros Ht H b' t'. unfold counts_incr.
  destruct (decide (b' = b)) as [-> | Hb]; [| apply H].
  rewrite dom_incr, elem_of_union, elem_of_singleton.
  destruct (decide (t = t')) as [<- | Hne].
  - intros _. split; [done |]. rewrite count_incr_eq. lia.
  - intros [-> | Hin]; [done |]. rewrite count_incr_ne by done. by apply H.
Qed.

Lemma keys_kept cfg reg feeds :
  kept_by_scan cfg reg feeds (keys_ok cfg reg).
Proof.
  split.
  - intros sub posts p b tb t _ _ Ht (Hk & Hps & Hst).
    apply post_tickers_accepted in Ht.
    unfold keys_ok. cbn [record_post_mention per_sub counts sample_titles].
    split; [by apply counts_incr_keys |].
    rewrite all_tickers_incr. unfold per_sub_incr, sample_add.
    rewrite !dom_insert_L, Hps. split; [done | set_solver].
  - intros sub cb tb t Ht (Hk & Hps & Hst).
    unfold keys_ok. cbn [record_comment_mention per_sub counts sample_titles].
    split; [by apply counts_incr_keys |].
    rewrite all_tickers_incr. unfold per_sub_incr.
    rewrite !dom_insert_L, Hps. split; [done | set_solver].
Qed.

Lemma keys_ok_empty cfg reg : keys_ok cfg reg empty_tables.
Proof.
  unfold keys_ok, all_tickers. cbn. rewrite !dom_empty_L.
  split; [intros b t []%elem_of_empty | set_solver].
Qed.

(** X14.  After any scan every counted ticker has at least one mention
    and is one the extractor accepts: one to five capital letters,
    verified, in neither exclusion set, passing the category filter. *)
Theorem counted_tickers_accepted (cfg : Settings) (reg : Registry)
  (feeds : list (str * list Post)) (t : str) :
  t ∈ all_tickers (counts (scan_subreddits cfg reg feeds)) ->
  accepted cfg reg t
  /\ (1 <= mentions (counts (scan_subreddits cfg reg feeds)) t)%nat.
Proof.
  destruct (scan_subreddits_kept_by cfg reg feeds (keys_ok cfg reg)
              (keys_kept cfg reg feeds) (keys_ok_empty cfg reg))
    as (Hk & _ & _).
  unfold all_tickers, mentions.
  intros [[H | H]%elem_of_union | H]%elem_of_union;
    destruct (Hk _ _ H) as [Ha Hc]; (split; [exact Ha | lia]).
Qed.

(** X15.  After any scan the subreddit breakdown has exactly the counted
    tickers as keys, and the samples table has no other key. *)
Theorem tables_share_keys (cfg : Settings) (reg : Registry)
  (feeds : list (str * list Post)) :
  let tb := scan_subreddits cfg reg feeds in
  dom (per_sub tb) = all_tickers (counts tb)
  /\ dom (sample_titles tb) ⊆ all_tickers (counts tb).
Proof.
  cbn zeta.
  destruct (scan_subreddits_kept_by cfg reg feeds (keys_ok cfg reg)
              (keys_kept cfg reg feeds) (keys_ok_empty cfg reg))
    as (_ & Hps & Hst).
  by split.
Qed.

Lemma samples_from_posts_kept cfg reg feeds :
  kept_by_scan cfg reg feeds (samples_from_posts cfg reg feeds).
Proof.
  split.
  - intros sub posts p b tb t Hsub Hp Ht H t' sub' s.
    cbn [record_post_mention sample_titles].
    destruct (decide (t = t')) as [<- | Hne].
    + rewrite samples_add_eq. destruct (_ <? _)%nat; [| apply H].
      intros [Hin | Heq%list_elem_of_singleton]%elem_of_app; [by apply H |].
      injection Heq as -> ->. by exists posts, p.
    + rewrite samples_add_ne by done. apply H.
  - intros sub cb tb t _ H. exact H.
Qed.

Lemma take_length n : forall s : str, (length (take n s) <= n)%nat.
Proof.
  induction n as [| n IH]; intros [| c s]; cbn; try lia.
  specialize (IH s). lia.
Qed.

(** X16.  After any scan every stored sample of a ticker is at most 140
    characters long and is the cut title of a post of the sample's
    subreddit whose title or text mentions the ticker. *)
Theorem samples_come_from_posts (cfg : Settings) (reg : Registry)
  (feeds : list (str * list Post)) (t sub s : str) :
  (sub, s) ∈ samples (sample_titles (scan_subreddits cfg reg feeds)) t ->
  (length s <= 140)%nat
  /\ exists posts p,
       (sub, posts) ∈ feeds /\ p ∈ posts
       /\ s = take 140 (title p)
       /\ t ∈ post_tickers cfg reg p.
Proof.
  intros Hin.
  destruct (scan_subreddits_kept_by cfg reg feeds
              (samples_from_posts cfg reg feeds)
              (samples_from_posts_kept cfg reg feeds)) with t sub s
    as (posts & p & H1 & H2 & -> & H4); [| exact Hin |].
  - intros t' sub' s' []%elem_of_nil.
  - split; [apply take_length | by exists posts, p].
Qed.

Lemma count_counts_incr cs b t b' t' :
  count (counts_incr cs b t b') t'
  = (count (cs b') t'
     + if decide (b = b') then occurrences t' [t] else 0)%nat.
Proof.
  unfold occurrences. rewrite filter_cons, filter_nil.
  destruct (decide (b = b')) as [<- | Hb].
  - destruct (decide (t = t')) as [<- | Ht]; cbn [length].
    + rewrite counts_incr_eq. lia.
    + rewrite count_counts_incr_ne by done. lia.
  - rewrite counts_incr_other_bucket by done. lia.
Qed.

Lemma occurrences_cons t x tks :
  occurrences t (x :: tks) = (occurrences t [x] + occurrences t tks)%nat.
Proof.
  unfold occurrences. rewrite !filter_cons, filter_nil.
  destruct (decide (x = t)); cbn [length]; lia.
Qed.

Lemma occurrences_nil t : occurrences t [] = 0%nat.
Proof. reflexivity. Qed.

Lemma fold_mentions_count (step : Tables -> str -> Tables) b tks b' t' :
  (forall tb t, counts (step tb t) = counts_incr (counts tb) b t) ->
  forall tb,
    count (counts (fold_left step tks tb) b') t'
    = (count (counts tb b') t'
       + if decide (b = b') then occurrences t' tks else 0)%nat.
Proof.
  intros Hstep. induction tks as [| t tks IH]; intros tb; cbn [fold_left].
  - rewrite occurrences_nil. destruct (decide _); lia.
  - rewrite IH, Hstep, count_counts_incr, (occurrences_cons t' t tks).
    destruct (decide (b = b')); lia.
Qed.

Lemma scan_comment_count cfg reg sub tb c b t :
  count (counts (scan_comment cfg reg sub tb c) b) t
  = (count (counts tb b) t + comment_mentions cfg reg b t c)%nat.
Proof.
  unfold scan_comment, comment_mentions.
  destruct (c_age_days c) as [age |]; [| lia].
  destruct (PyStr.nonempty (body c)) eqn:Hb; cbn [negb].
  - by rewrite (fold_mentions_count _ (bucket_for_age_days age)).
  - unfold extract_tickers. rewrite Hb. cbn [negb].
    rewrite occurrences_nil. destruct (decide _); lia.
Qed.

Lemma fold_scan_comment_count cfg reg sub cs b t : forall tb,
  count (counts (fold_left (scan_comment cfg reg sub) cs tb) b) t
  = (count (counts tb b) t
     + sum_list (map (comment_mentions cfg reg b t) cs))%nat.
Proof.
  induction cs as [| c cs IH]; intros tb; cbn [fold_left map].
  - cbn. lia.
  - rewrite IH, scan_comment_count. cbn. lia.
Qed.

(** X17.  Scanning a post adds to each count exactly the mentions found:
    the occurrences of the ticker in title and text go to the bucket of
    the post's age, and those in each of the first 75 comments that has a
    timestamp go to the bucket of the comment's age. *)
Theorem scan_post_counts_mentions (cfg : Settings) (reg : Registry)
  (sub : str) (tb : Tables) (p : Post) (b : bucket) (t : str) :
  count (counts (scan_post cfg reg sub tb p) b) t
  = (count (counts tb b) t + post_mentions cfg reg b t p)%nat.
Proof.
  unfold scan_post, post_mentions. cbn zeta.
  rewrite fold_scan_comment_count.
  rewrite (fold_mentions_count _ (bucket_for_age_days (post_age_days p)));
    [| reflexivity].
  unfold post_tickers. lia.
Qed.

(** X18.  The scan of a subreddit stops at the first post older than the
    cutoff: that post and all posts listed after it change nothing. *)
Theorem posts_after_cutoff_ignored (cfg : Settings) (reg : Registry)
  (sub : str) (tb : Tables) (pre post : list Post) (p : Post) :
  before_cutoff p = true ->
  scan_posts cfg reg sub tb (pre ++ p :: post)
  = scan_posts cfg reg sub tb pre.
Proof.
  intros Hp. revert tb.
  induction pre as [| q pre IH]; intros tb; cbn [app scan_posts].
  - by rewrite Hp.
  - destruct (before_cutoff q); [reflexivity | apply IH].
Qed.


End AggregatorMore.

(** ** Scorer and ranker *)

Section FloatOrder2.
Local Open Scope float_scope.

Lemma SFcompare_finite_Eq s1 m1 e1 s2 m2 e2 :
  SFcompare (S754_finite s1 m1 e1) (S754_finite s2 m2 e2) = Some Eq ->
  s1 = s2 /\ e1 = e2 /\ m1 = m2.
Proof.
  cbn. intros [= H].
  change (PosDef.Pos.compare_cont Eq m1 m2) with (Pos.compare m1 m2) in H.
  destruct s1, s2; try discriminate;
    destruct (Z.compare_spec e1 e2) as [-> | |]; try discriminate;
    destruct (Pos.compare_spec m1 m2) as [-> | |]; try discriminate; done.
Qed.

Lemma SFcompare_finite_refl s m e :
  SFcompare (S754_finite s m e) (S754_finite s m e) = Some Eq.
Proof.
  cbn. rewrite Z.compare_refl.
  change (PosDef.Pos.compare_cont Eq m m) with (Pos.compare m m).
  rewrite Pos.compare_refl. by destruct s.
Qed.

Lemma SFcompare_Eq_trans x y z :
  SFcompare x z = Some Eq -> SFcompare y z = Some Eq ->
  SFcompare x y = Some Eq.
Proof.
  destruct x as [sx | sx | | sx mx ex], y as [sy | sy | | sy my ey],
           z as [sz | sz | | sz mz ez];
    try (intros (-> & -> & ->)%SFcompare_finite_Eq
                (-> & -> & ->)%SFcompare_finite_Eq;
         apply SFcompare_finite_refl);
    cbn; try discriminate; try reflexivity;
    try (destruct sx; discriminate); try (destruct sy; discriminate);
    try (destruct sz; discriminate);
    try (destruct sx, sz; discriminate); try (destruct sy, sz; discriminate);
    try (destruct sx, sy, sz; (discriminate || reflexivity)).
Qed.

Lemma eqb_same_not_ltb x y s :
  (x =? s) = true -> (y =? s) = true -> (x <? y) = false.
Proof.
  rewrite !FloatAxioms.eqb_spec, FloatAxioms.ltb_spec. unfold SFeqb, SFltb.
  intros Hx Hy.
  rewrite (SFcompare_Eq_trans (Prim2SF x) (Prim2SF y) (Prim2SF s)); [done | |].
  - by destruct (SFcompare (Prim2SF x) (Prim2SF s)) as [[] |].
  - by destruct (SFcompare (Prim2SF y) (Prim2SF s)) as [[] |].
Qed.

Lemma SFleb_finite_trans s1 m1 e1 s2 m2 e2 s3 m3 e3 :
  SFleb (S754_finite s1 m1 e1) (S754_finite s2 m2 e2) = true ->
  SFleb (S754_finite s2 m2 e2) (S754_finite s3 m3 e3) = true ->
  SFleb (S754_finite s1 m1 e1) (S754_finite s3 m3 e3) = true.
Proof.
  unfold SFleb. cbn.
  change (PosDef.Pos.compare_cont Eq m1 m2) with (Pos.compare m1 m2).
  change (PosDef.Pos.compare_cont Eq m2 m3) with (Pos.compare m2 m3).
  change (PosDef.Pos.compare_cont Eq m1 m3) with (Pos.compare m1 m3).
  destruct s1, s2, s3; try done;
    destruct (Z.compare_spec e1 e2), (Z.compare_spec e2 e3),
             (Z.compare_spec e1 e3); try done; try lia;
    destruct (Pos.compare_spec m1 m2), (Pos.compare_spec m2 m3),
             (Pos.compare_spec m1 m3); cbn; try done; try lia.
Qed.

Lemma SFleb_trans x y z :
  SFleb x y = true -> SFleb y z = true -> SFleb x z = true.
Proof.
  destruct x as [sx | sx | | sx mx ex], y as [sy | sy | | sy my ey],
           z as [sz | sz | | sz mz ez];
    try apply SFleb_finite_trans;
    unfold SFleb; cbn; try done;
    try (destruct sx; done); try (destruct sy; done); try (destruct sz; done);
    try (destruct sx, sy; done); try (destruct sx, sz; done);
    try (destruct sy, sz; done); try (destruct sx, sy, sz; done).
Qed.

Lemma leb_trans x y z :
  (x <=? y) = true -> (y <=? z) = true -> (x <=? z) = true.
Proof. rewrite !FloatAxioms.leb_spec. apply SFleb_trans. Qed.

End FloatOrder2.

Section RankerMore.

Lemma insert_desc_ties s r rows :
  List.filter (same_score s) (insert_desc r rows)
  = List.filter (same_score s) (r :: rows).
Proof.
  induction rows as [| r' rows IH]; [reflexivity |].
  cbn [insert_desc].
  destruct (row_score r <? row_score r')%float eqn:Hlt; [| reflexivity].
  cbn [List.filter] in *. rewrite IH.
  destruct (same_score s r) eqn:Hr; [| reflexivity].
  destruct (same_score s r') eqn:Hr'; [| reflexivity].
  unfold same_score in Hr, Hr'.
  rewrite (eqb_same_not_ltb _ _ s Hr Hr') in Hlt. discriminate.
Qed.

Lemma sort_desc_ties s rows :
  List.filter (same_score s) (sort_desc rows)
  = List.filter (same_score s) rows.
Proof.
  induction rows as [| r rows IH]; [reflexivity |].
  cbn [sort_desc]. rewrite insert_desc_ties. cbn [List.filter].
  by rewrite IH.
Qed.

(** X19.  The sort is stable: the rows of one score stand in the ranked
    output in the order in which the loop built them. *)
Theorem ties_keep_iteration_order (cs : bucket -> gmap str nat)
  (meta : gmap str SymbolInfo) (ts : list str) (s : float) :
  List.filter (same_score s) (ranked_rows cs meta ts)
  = List.filter (same_score s) (build_rows cs meta ts).
Proof. apply sort_desc_ties. Qed.

Lemma build_rows_omap cs meta ts :
  build_rows cs meta ts = omap (candidate cs meta) ts.
Proof.
  induction ts as [| t ts IH]; [reflexivity |].
  cbn [build_rows omap list_omap]. rewrite IH.
  by destruct (candidate cs meta t).
Qed.

(** X20.  The iteration order of the ticker set changes the ranked output
    by a permutation only: the same rows come out. *)
Theorem ranking_ignores_iteration_order (cs : bucket -> gmap str nat)
  (meta : gmap str SymbolInfo) (ts ts' : list str) :
  ts ≡ₚ ts' ->
  ranked_rows cs meta ts ≡ₚ ranked_rows cs meta ts'.
Proof.
  intros Hperm. unfold ranked_rows.
  rewrite !sort_desc_perm, !build_rows_omap. by rewrite Hperm.
Qed.

Lemma build_rows_tickers cs meta ts :
  row_t <$> build_rows cs meta ts
  = filter (fun t => is_Some (candidate cs meta t)) ts.
Proof.
  induction ts as [| t ts IH]; [reflexivity |].
  cbn [build_rows]. rewrite filter_cons.
  destruct (candidate cs meta t) as [r |] eqn:E.
  - rewrite decide_True by (by eexists). cbn [fmap list_fmap].
    apply candidate_fields in E as [-> _]. by rewrite <- IH.
  - rewrite decide_False by (by intros [? ?]). exact IH.
Qed.

Lemma ranked_rows_tickers_nodup cs meta ts :
  NoDup ts -> NoDup (row_t <$> ranked_rows cs meta ts).
Proof.
  intros Hnd. unfold ranked_rows. rewrite sort_desc_perm.
  rewrite build_rows_tickers. by apply NoDup_filter.
Qed.

(** X21.  No ticker has two rows in the ranked output, the tickers being
    iterated without repetition. *)
Theorem one_row_per_ticker (cs : bucket -> gmap str nat)
  (meta : gmap str SymbolInfo) (ts : list str) :
  NoDup ts -> NoDup (row_t <$> ranked_rows cs meta ts).
Proof. apply ranked_rows_tickers_nodup. Qed.

Lemma score_ge_trans : Relations_1.Transitive score_ge.
Proof.
  intros r1 r2 r3 H12 H23. unfold score_ge in *. by eapply leb_trans.
Qed.

Lemma strongly_sorted_lookup (rows : list Row) : forall i j r1 r2,
  StronglySorted score_ge rows -> (i < j)%nat ->
  rows !! i = Some r1 -> rows !! j = Some r2 -> score_ge r1 r2.
Proof.
  induction rows as [| r rows IH]; intros i j r1 r2 Hs Hij H1 H2;
    [discriminate |].
  apply StronglySorted_inv in Hs as [Hs Hall].
  destruct j as [| j]; [lia |]. cbn in H2.
  destruct i as [| i]; cbn in H1.
  - injection H1 as <-. rewrite List.Forall_forall in Hall.
    apply Hall. apply list_elem_of_In. by eapply list_elem_of_lookup_2.
  - apply (IH i j); [done | lia | done | done].
Qed.

Lemma ranked_rows_later_lower cs meta ts i j r1 r2 :
  (i < j)%nat ->
  ranked_rows cs meta ts !! i = Some r1 ->
  ranked_rows cs meta ts !! j = Some r2 ->
  score_ge r1 r2.
Proof.
  intros Hij H1 H2.
  apply (strongly_sorted_lookup (ranked_rows cs meta ts) i j); try done.
  apply Sorted_StronglySorted; [apply score_ge_trans |].
  apply sort_desc_sorted, build_rows_numbers.
Qed.

(** X22.  In the ranked output every row has a score greater than or equal
    to that of every row after it, adjacent or not; so the first row has
    the highest score. *)
Theorem ranked_rows_all_descending (cs : bucket -> gmap str nat)
  (meta : gmap str SymbolInfo) (ts : list str)
  (i j : nat) (r1 r2 : Row) :
  (i < j)%nat ->
  ranked_rows cs meta ts !! i = Some r1 ->
  ranked_rows cs meta ts !! j = Some r2 ->
  (row_score r2 <=? row_score r1)%float = true.
Proof. apply ranked_rows_later_lower. Qed.

(** X23.  The rows printed, [rows[:25]], are the best: each has a score
    greater than or equal to that of every row left out. *)
Theorem printed_rows_are_the_best (cs : bucket -> gmap str nat)
  (meta : gmap str SymbolInfo) (ts : list str) (r r' : Row) :
  r ∈ printed_rows (ranked_rows cs meta ts) ->
  r' ∈ skipn 25 (ranked_rows cs meta ts) ->
  (row_score r' <=? row_score r)%float = true.
Proof.
  unfold printed_rows.
  intros (i & Hi)%list_elem_of_lookup (j & Hj)%list_elem_of_lookup.
  change (firstn 25) with (@take Row 25) in Hi.
  change (skipn 25) with (@drop Row 25) in Hj.
  apply lookup_take_Some in Hi as [Hi Hlt]. rewrite lookup_drop in Hj.
  apply (ranked_rows_later_lower cs meta ts i (25 + j)); [lia | done | done].
Qed.

End RankerMore.

(** ** The whole run *)

Section WholeRun.
Context {U : Unicode}.

Lemma main_inv cfg text1 text2 feeds rows :
  main cfg text1 text2 feeds = Some rows ->
  exists reg,
    load_symbol_metadata text1 text2 = Some reg
    /\ rows =
         ranked_rows (counts (scan_subreddits cfg reg feeds)) (meta reg)
           (elements
              (all_tickers (counts (scan_subreddits cfg reg feeds)))).
Proof.
  unfold main. destruct (load_symbol_metadata text1 text2) as [reg |];
    [| discriminate].
  cbn. intros [= <-]. by exists reg.
Qed.

(** X24.  Every row [main] produces is for a ticker the extractor accepts
    against the loaded registry; the registry has a record for it, the
    row carries the name of that record, and with [EXCLUDE_ETFS] on the
    record is not an ETF. *)
Theorem main_rows_are_accepted (cfg : Settings) (text1 text2 : str)
  (feeds : list (str * list Post)) (rows : list Row) (r : Row) :
  main cfg text1 text2 feeds = Some rows ->
  r ∈ rows ->
  exists reg info,
    load_symbol_metadata text1 text2 = Some reg
    /\ accepted cfg reg (row_t r)
    /\ meta reg !! row_t r = Some info
    /\ row_name r = name info
    /\ EXCLUDE_ETFS cfg && is_etf info = false.
Proof.
  intros (reg & Hload & ->)%main_inv (t & Ht & Hc)%ranked_rows_elem.
  apply elem_of_elements in Ht.
  destruct (scan_subreddits_kept_by cfg reg feeds (keys_ok cfg reg)
              (keys_kept cfg reg feeds) (keys_ok_empty cfg reg))
    as (Hk & _ & _).
  assert (accepted cfg reg t) as Hacc.
  { unfold all_tickers in Ht.
    apply elem_of_union in Ht as [[H | H]%elem_of_union | H];
      by destruct (Hk _ _ H). }
  apply candidate_fields in Hc as (Hrt & Hname & _). rewrite Hrt.
  destruct Hacc as (Hlen & Hup & Hver & Hstop & Hexcl & Hpass).
  pose proof (load_meta_covers _ _ _ Hload) as Hcov. unfold meta_covers in Hcov.
  assert (is_Some (meta reg !! t)) as [info Hinfo].
  { apply elem_of_dom. rewrite Hcov. exact Hver. }
  exists reg, info. split; [done |].
  split; [unfold accepted; tauto |].
  split; [done |]. split.
  - rewrite Hname. unfold display_name. by rewrite Hinfo.
  - unfold passes_category_filters in Hpass. rewrite Hinfo in Hpass.
    by destruct (EXCLUDE_ETFS cfg && is_etf info).
Qed.

(** X25.  [main] produces at most one row per ticker. *)
Theorem main_one_row_per_ticker (cfg : Settings) (text1 text2 : str)
  (feeds : list (str * list Post)) (rows : list Row) :
  main cfg text1 text2 feeds = Some rows ->
  NoDup (row_t <$> rows).
Proof.
  intros (reg & _ & ->)%main_inv.
  apply ranked_rows_tickers_nodup, NoDup_elements.
Qed.

End WholeRun.

(** ** Instances on the sample inputs *)

Lemma metadata_covers_universe_witness :
  dom (meta Sample.loaded) = verified Sample.loaded.
Proof.
  apply (metadata_covers_universe (U := ascii_tables) Sample.nasdaq_listed
           Sample.other_listed Sample.loaded).
  vm_compute. reflexivity.
Defined.

Lemma universe_is_union_witness :
  exists reg1 reg2,
    load_nasdaq_listed (U := ascii_tables) Sample.nasdaq_listed
      empty_registry = Some reg1
    /\ load_other_listed (U := ascii_tables) Sample.other_listed
         empty_registry = Some reg2
    /\ verified Sample.loaded = verified reg1 ∪ verified reg2.
Proof.
  apply (universe_is_union (U := ascii_tables) Sample.nasdaq_listed
           Sample.other_listed Sample.loaded).
  vm_compute. reflexivity.
Defined.

Lemma nasdaq_last_row_wins_witness :
  exists reg',
    load_nasdaq_listed (U := ascii_tables) Fixture.relisted empty_registry
    = Some reg'
    /\ meta reg' !! lit "ABCD"
       = Some (Sample.info "Abcd Incorporated" false).
Proof.
  apply (nasdaq_last_row_wins (U := ascii_tables) Fixture.relisted
           empty_registry Fixture.nasdaq_header
           [Fixture.row ["ABCD"; "Abcd Inc."; "Q"; "N"]%string]
           [Fixture.row ["XYZ"; "Xyz Corp"; "Q"; "N"]%string]
           (Fixture.row ["ABCD"; "Abcd Incorporated"; "Q"; "N"]%string)
           0 1 3).
  - vm_compute. reflexivity.
  - vm_compute. reflexivity.
  - vm_compute. reflexivity.
  - vm_compute. reflexivity.
  - vm_compute. reflexivity.
  - intros p ->%list_elem_of_singleton [info H].
    vm_compute in H. discriminate.
Defined.

Lemma other_first_row_wins_witness :
  exists reg',
    load_other_listed (U := ascii_tables) Sample.other_listed
      Sample.loaded_nasdaq = Some reg'
    /\ meta reg' !! lit "NEWC" = Some (Sample.info "New Co" false).
Proof.
  apply (other_first_row_wins (U := ascii_tables) Sample.other_listed
           Sample.loaded_nasdaq Fixture.other_header
           [Fixture.row ["ABCD"; "Abcd Holdings"; "Y"]%string;
            Fixture.row ["BRK.A"; "Berkshire"; "N"]%string]
           [Fixture.row ["NEWC"; "New Co Again"; "Y"]%string]
           (Fixture.row ["NEWC"; "New Co"; "N"]%string) 0 1 2).
  - vm_compute. reflexivity.
  - vm_compute. reflexivity.
  - vm_compute. reflexivity.
  - vm_compute. reflexivity.
  - vm_compute. reflexivity.
  - intros p [-> | ->%list_elem_of_singleton]%elem_of_cons [info H];
      vm_compute in H; discriminate.
  - vm_compute. reflexivity.
Defined.

Lemma etf_never_extracted_witness :
  lit "SPYY" ∉ extract_tickers (U := ascii_tables) settings
                 (lit "SPYY to the moon, $SPYY")
                 (verified Sample.loaded) (meta Sample.loaded).
Proof.
  apply (etf_never_extracted (U := ascii_tables) settings
           (lit "SPYY to the moon, $SPYY")
           (verified Sample.loaded) (meta Sample.loaded) (lit "SPYY")
           (Sample.info "Some Index Fund" true)).
  - reflexivity.
  - vm_compute. reflexivity.
  - reflexivity.
Defined.

Lemma keyword_never_extracted_witness :
  lit "XYZ" ∉ extract_tickers (U := ascii_tables) settings
                (lit "XYZ has news")
                (verified Sample.loaded) (meta Sample.loaded).
Proof.
  apply (keyword_never_extracted (U := ascii_tables) settings
           (lit "XYZ has news")
           (verified Sample.loaded) (meta Sample.loaded) (lit "XYZ")
           (lit "THERAPEUT") (Sample.info "XYZ Therapeutics Inc." false)).
  - vm_compute. reflexivity.
  - reflexivity.
  - vm_compute. reflexivity.
  - right. split; [reflexivity |].
    refine (bool_decide_unpack _ _). vm_compute. exact I.
Defined.

Lemma lowercase_keyword_never_matches_witness :
  security_name_has_any (U := ascii_tables) (lit "Acme Pharma Inc.")
    [lit "pharma"; lit "Adr"] = false.
Proof.
  apply (lowercase_keyword_never_matches (U := ascii_tables)
           (lit "Acme Pharma Inc.") [lit "pharma"; lit "Adr"]).
  - exact ascii_tables_never_lower.
  - repeat constructor.
Defined.

Lemma bare_ticker_extracted_witness :
  extract_tickers (U := ascii_tables) settings (lit "ABCD")
    (verified Sample.abcd_only) (meta Sample.abcd_only) = [lit "ABCD"]
  /\ extract_tickers (U := ascii_tables) settings (lit "$ABCD")
       (verified Sample.abcd_only) (meta Sample.abcd_only) = [lit "ABCD"].
Proof.
  apply (bare_ticker_extracted (U := ascii_tables) settings
           (verified Sample.abcd_only) (meta Sample.abcd_only) (lit "ABCD")).
  - exact ascii_tables_agree.
  - split; [vm_compute; lia | reflexivity].
  - vm_compute. lia.
  - refine (bool_decide_unpack _ _). vm_compute. exact I.
  - apply (bool_decide_eq_false_1 _). vm_compute. reflexivity.
  - apply (bool_decide_eq_false_1 _). vm_compute. reflexivity.
  - vm_compute. reflexivity.
Defined.

Lemma extraction_splits_at_separator_witness :
  extract_tickers (U := ascii_tables) settings (lit "buy ABCD, hold NEWC")
    (verified Sample.two_ticker_registry) (meta Sample.two_ticker_registry)
  = extract_tickers (U := ascii_tables) settings (lit "buy ABCD")
      (verified Sample.two_ticker_registry) (meta Sample.two_ticker_registry)
    ++ extract_tickers (U := ascii_tables) settings (lit " hold NEWC")
         (verified Sample.two_ticker_registry)
         (meta Sample.two_ticker_registry).
Proof.
  apply (extraction_splits_at_separator (U := ascii_tables) settings
           (verified Sample.two_ticker_registry)
           (meta Sample.two_ticker_registry)
           (lit "buy ABCD") (lit " hold NEWC") 44%N).
  - exact ascii_tables_agree.
  - split; [unfold ascii_char; lia |]. split; [reflexivity | discriminate].
Defined.

Lemma counted_tickers_accepted_witness :
  accepted (U := ascii_tables) settings Sample.abcd_only (lit "ABCD")
  /\ (1 <= mentions
            (counts (scan_subreddits (U := ascii_tables) settings
                       Sample.abcd_only Sample.blooming_feed))
            (lit "ABCD"))%nat.
Proof.
  apply (counted_tickers_accepted (U := ascii_tables) settings
           Sample.abcd_only Sample.blooming_feed (lit "ABCD")).
  refine (bool_decide_unpack _ _). vm_compute. exact I.
Defined.

Lemma samples_come_from_posts_witness :
  (length (lit "ABCD abcd $ABCD Abcd ABCD") <= 140)%nat
  /\ exists posts p,
       (lit "stocks", posts) ∈ Sample.blooming_feed /\ p ∈ posts
       /\ lit "ABCD abcd $ABCD Abcd ABCD" = take 140 (title p)
       /\ lit "ABCD" ∈ post_tickers (U := ascii_tables) settings
                         Sample.abcd_only p.
Proof.
  apply (samples_come_from_posts (U := ascii_tables) settings
           Sample.abcd_only Sample.blooming_feed (lit "ABCD") (lit "stocks")
           (lit "ABCD abcd $ABCD Abcd ABCD")).
  apply (list_elem_of_lookup_2 _ 0). vm_compute. reflexivity.
Defined.

Lemma posts_after_cutoff_ignored_witness :
  scan_posts (U := ascii_tables) settings Sample.abcd_only (lit "stocks")
    empty_tables
    ([Sample.mention_post 1 "ABCD"] ++ Fixture.expired_post
       :: [Sample.mention_post 2 "ABCD ABCD"])
  = scan_posts (U := ascii_tables) settings Sample.abcd_only (lit "stocks")
      empty_tables [Sample.mention_post 1 "ABCD"].
Proof.
  apply (posts_after_cutoff_ignored (U := ascii_tables) settings
           Sample.abcd_only (lit "stocks") empty_tables
           [Sample.mention_post 1 "ABCD"]
           [Sample.mention_post 2 "ABCD ABCD"] Fixture.expired_post).
  reflexivity.
Defined.

Lemma ranking_ignores_iteration_order_witness :
  ranked_rows Sample.two_ticker_counts (meta Sample.two_ticker_registry)
    [lit "ABCD"; lit "NEWC"]
  ≡ₚ ranked_rows Sample.two_ticker_counts (meta Sample.two_ticker_registry)
       [lit "NEWC"; lit "ABCD"].
Proof.
  apply (ranking_ignores_iteration_order Sample.two_ticker_counts
           (meta Sample.two_ticker_registry)
           [lit "ABCD"; lit "NEWC"] [lit "NEWC"; lit "ABCD"]).
  apply Permutation_swap.
Defined.

Lemma one_row_per_ticker_witness :
  NoDup (row_t <$> ranked_rows Sample.two_ticker_counts
                     (meta Sample.two_ticker_registry)
                     (elements (all_tickers Sample.two_ticker_counts))).
Proof.
  apply (one_row_per_ticker Sample.two_ticker_counts
           (meta Sample.two_ticker_registry)
           (elements (all_tickers Sample.two_ticker_counts))).
  apply NoDup_elements.
Defined.

Lemma ranked_rows_all_descending_witness :
  (row_score (Fixture.ticker_row "TX" 26 27 133)
   <=? row_score (Fixture.ticker_row "TZ" 28 29 143))%float = true.
Proof.
  apply (ranked_rows_all_descending Fixture.alphabet_counts ∅
           Fixture.alphabet 0 2).
  - lia.
  - vm_compute. reflexivity.
  - vm_compute. reflexivity.
Defined.

Lemma printed_rows_are_the_best_witness :
  (row_score (Fixture.ticker_row "TA" 3 4 18)
   <=? row_score (Fixture.ticker_row "TB" 4 5 23))%float = true.
Proof.
  apply (printed_rows_are_the_best Fixture.alphabet_counts ∅
           Fixture.alphabet).
  - apply (list_elem_of_lookup_2 _ 24). vm_compute. reflexivity.
  - apply (list_elem_of_lookup_2 _ 0). vm_compute. reflexivity.
Defined.

Lemma main_rows_are_accepted_witness :
  exists reg info,
    load_symbol_metadata (U := ascii_tables) Sample.nasdaq_listed
      Sample.other_listed = Some reg
    /\ accepted (U := ascii_tables) settings reg (lit "ABCD")
    /\ meta reg !! lit "ABCD" = Some info
    /\ lit "Abcd Inc." = name info
    /\ EXCLUDE_ETFS settings && is_etf info = false.
Proof.
  apply (main_rows_are_accepted (U := ascii_tables) settings
           Sample.nasdaq_listed Sample.other_listed Sample.blooming_feed
           [Sample.abcd_row 5 6 28] (Sample.abcd_row 5 6 28)).
  - vm_compute. reflexivity.
  - apply list_elem_of_here.
Defined.

Lemma main_one_row_per_ticker_witness :
  NoDup (row_t <$> [Sample.abcd_row 5 6 28]).
Proof.
  apply (main_one_row_per_ticker (U := ascii_tables) settings
           Sample.nasdaq_listed Sample.other_listed Sample.blooming_feed
           [Sample.abcd_row 5 6 28]).
  vm_compute. reflexivity.
Defined.
